(** * FractionDataType and the Point / Line geometry kit

    A shallow embedding of [fraction_data_type.py] and [cordination_geo.py].
    Python integers are [Z], Python floats are the kernel's binary64 floats,
    exceptions are values of [exn], and a method either returns a value,
    answers [NotImplemented], or raises. *)

From Stdlib Require Import ZArith Lia Bool String QArith Qround.
From Stdlib Require Import Floats.

Local Open Scope Z_scope.

(** ** The interpreter: exceptions, outcomes, numbers *)

Module Py.

(** The exception classes the two modules can raise, deliberately
    ([ValueError], [TypeError], with the message of the [raise] statement) or
    from a built-in operation ([ZeroDivisionError], [OverflowError]). *)
Inductive exn : Type :=
| ValueError (msg : string)
| TypeError (msg : string)
| ZeroDivisionError (msg : string)
| OverflowError (msg : string).

(** What a call does: it returns a value, returns the [NotImplemented]
    singleton (binary operators on a foreign operand) or raises. *)
Inductive outcome (A : Type) : Type :=
| Return (a : A)
| NotImplemented
| Raise (e : exn).

Arguments Return {A} a.
Arguments NotImplemented {A}.
Arguments Raise {A} e.

Definition bind {A B : Type} (o : outcome A) (k : A -> outcome B) : outcome B :=
  match o with
  | Return a => k a
  | NotImplemented => NotImplemented
  | Raise e => Raise e
  end.

Definition returned {A : Type} (o : outcome A) : Prop :=
  exists a, o = Return a.

Definition raises {A : Type} (o : outcome A) : bool :=
  match o with Raise _ => true | _ => false end.

(** A numeric argument: an [int] or a [float]. *)
Inductive num : Type :=
| PInt (z : Z)
| PFloat (x : float).

(** [a // b] on integers: floor division, [ZeroDivisionError] on [b = 0]. *)
Definition floordiv (a b : Z) : outcome Z :=
  if b =? 0 then Raise (ZeroDivisionError "integer division or modulo by zero")
  else Return (a / b).

(** [a % b] on integers: the remainder has the sign of [b]. *)
Definition modulo (a b : Z) : outcome Z :=
  if b =? 0 then Raise (ZeroDivisionError "integer division or modulo by zero")
  else Return (a mod b).

(** [x.is_integer()]: a finite float with no fractional part. *)
Definition is_integer (x : float) : bool :=
  match Prim2SF x with
  | S754_zero _ => true
  | S754_finite _ m e => (0 <=? e) || (Z.pos m mod 2 ^ (- e) =? 0)
  | S754_infinity _ | S754_nan => false
  end.

(** [int(x)] on a float: truncation toward zero; NaN and the infinities
    raise. *)
Definition int_of_float (x : float) : outcome Z :=
  match Prim2SF x with
  | S754_zero _ => Return 0
  | S754_finite s m e =>
      let mag := if 0 <=? e then Z.pos m * 2 ^ e else Z.pos m / 2 ^ (- e) in
      Return (if s then - mag else mag)
  | S754_infinity _ => Raise (OverflowError "cannot convert float infinity to integer")
  | S754_nan => Raise (ValueError "cannot convert float NaN to integer")
  end.

(** [int(v)] on a number. *)
Definition int_ (v : num) : outcome Z :=
  match v with
  | PInt z => Return z
  | PFloat x => int_of_float x
  end.

(** [float(z)] on an integer: the nearest binary64 (ties to even),
    [OverflowError] beyond the finite range. *)
Definition float_of_int (z : Z) : outcome float :=
  match binary_normalize prec emax z 0 false with
  | S754_infinity _ => Raise (OverflowError "int too large to convert to float")
  | sf => Return (SF2Prim sf)
  end.

(** [float(v)] on a number. *)
Definition float_ (v : num) : outcome float :=
  match v with
  | PInt z => float_of_int z
  | PFloat x => Return x
  end.

(** [v == 0] for a number. *)
Definition eq_zero (v : num) : bool :=
  match v with
  | PInt z => z =? 0
  | PFloat x => PrimFloat.eqb x 0%float
  end.

End Py.

Export Py.

Declare Scope py_scope.
Notation "x <- c1 ;; c2" := (Py.bind c1 (fun x => c2))
  (at level 61, c1 at next level, right associativity) : py_scope.
Local Open Scope py_scope.

(** ** fraction_data_type.py *)

Module Fraction.

(** An instance of [FractionDataType]: its two attributes. *)
Record FractionDataType : Type := Build { num : Z; den : Z }.

(** The right operand of a binary operator. *)
Inductive operand : Type :=
| OInt (n : Z)
| OFrac (f : FractionDataType)
| OOther.

(** [num = int(num) if isinstance(num, float) and num.is_integer() else num] *)
Definition integral (v : Py.num) : outcome Py.num :=
  match v with
  | PFloat x => if is_integer x then (z <- int_of_float x ;; Return (PInt z)) else Return v
  | PInt _ => Return v
  end.

(** [FractionDataType.__init__] *)
Definition __init__ (num0 den0 : Py.num) : outcome FractionDataType :=
  num1 <- integral num0 ;;
  den1 <- integral den0 ;;
  if eq_zero den1 then Raise (ValueError "Denominator cannot be zero")
  else
    n <- Py.int_ num1 ;;
    d <- Py.int_ den1 ;;
    let '(n, d) := if d <? 0 then (- n, - d) else (n, d) in
    let g := Z.gcd (Z.abs n) (Z.abs d) in
    n' <- Py.floordiv n g ;;
    d' <- Py.floordiv d g ;;
    Return (Build n' d').

(** [FractionDataType(n, d)] on two integers. *)
Definition new (n d : Z) : outcome FractionDataType := __init__ (PInt n) (PInt d).

(** The two tests that open every binary operator:
    [if isinstance(other, int): other = FractionDataType(other, 1)] and
    [if not isinstance(other, FractionDataType): return NotImplemented]. *)
Definition coerce (other : operand) : outcome FractionDataType :=
  match other with
  | OInt n => new n 1
  | OFrac g => Return g
  | OOther => NotImplemented
  end.

(** *** Arithmetic *)

Definition __add__ (self : FractionDataType) (other : operand) : outcome FractionDataType :=
  o <- coerce other ;;
  let new_num := num self * den o + num o * den self in
  let new_den := den self * den o in
  new new_num new_den.

Definition __radd__ (self : FractionDataType) (other : operand) : outcome FractionDataType :=
  __add__ self other.

Definition __sub__ (self : FractionDataType) (other : operand) : outcome FractionDataType :=
  o <- coerce other ;;
  let new_num := num self * den o - num o * den self in
  let new_den := den self * den o in
  new new_num new_den.

(** [other.__sub__(self)]; a left operand that is neither an [int] nor a
    Fraction (a [float]) answers [NotImplemented] itself. *)
Definition __rsub__ (self : FractionDataType) (other : operand) : outcome FractionDataType :=
  match other with
  | OInt n => o <- new n 1 ;; __sub__ o (OFrac self)
  | OFrac g => __sub__ g (OFrac self)
  | OOther => NotImplemented
  end.

Definition __mul__ (self : FractionDataType) (other : operand) : outcome FractionDataType :=
  o <- coerce other ;;
  let new_num := num self * num o in
  let new_den := den self * den o in
  new new_num new_den.

Definition __rmul__ (self : FractionDataType) (other : operand) : outcome FractionDataType :=
  __mul__ self other.

Definition __truediv__ (self : FractionDataType) (other : operand) : outcome FractionDataType :=
  o <- coerce other ;;
  if num o =? 0 then Raise (ValueError "Cannot divide by zero")
  else new (num self * den o) (den self * num o).

Definition __rtruediv__ (self : FractionDataType) (other : operand) : outcome FractionDataType :=
  match other with
  | OInt n => o <- new n 1 ;; __truediv__ o (OFrac self)
  | OFrac g => __truediv__ g (OFrac self)
  | OOther => NotImplemented
  end.

Definition __floordiv__ (self : FractionDataType) (other : operand) : outcome Z :=
  o <- coerce other ;;
  if num o =? 0 then Raise (ValueError "Cannot divide by zero")
  else Py.floordiv (num self * den o) (den self * num o).

(** [self - other * quotient], with [quotient = self // other]. *)
Definition __mod__ (self : FractionDataType) (other : operand) : outcome FractionDataType :=
  o <- coerce other ;;
  quotient <- __floordiv__ self (OFrac o) ;;
  p <- __mul__ o (OInt quotient) ;;
  __sub__ self (OFrac p).

Definition __pow__ (self : FractionDataType) (exponent : Py.num) : outcome FractionDataType :=
  match exponent with
  | PFloat _ => Raise (TypeError "Exponent must be an integer")
  | PInt e =>
      if e <? 0 then new (den self ^ (- e)) (num self ^ (- e))
      else new (num self ^ e) (den self ^ e)
  end.

Definition __neg__ (self : FractionDataType) : outcome FractionDataType :=
  new (- num self) (den self).

Definition __pos__ (self : FractionDataType) : outcome FractionDataType :=
  new (num self) (den self).

Definition __abs__ (self : FractionDataType) : outcome FractionDataType :=
  new (Z.abs (num self)) (den self).

(** *** Comparisons *)

Definition __eq__ (self : FractionDataType) (other : operand) : outcome bool :=
  o <- coerce other ;;
  Return ((num self =? num o) && (den self =? den o)).

Definition __ne__ (self : FractionDataType) (other : operand) : outcome bool :=
  result <- __eq__ self other ;;
  Return (negb result).

Definition __lt__ (self : FractionDataType) (other : operand) : outcome bool :=
  o <- coerce other ;;
  Return (num self * den o <? num o * den self).

Definition __le__ (self : FractionDataType) (other : operand) : outcome bool :=
  o <- coerce other ;;
  Return (num self * den o <=? num o * den self).

Definition __gt__ (self : FractionDataType) (other : operand) : outcome bool :=
  o <- coerce other ;;
  Return (num self * den o >? num o * den self).

Definition __ge__ (self : FractionDataType) (other : operand) : outcome bool :=
  o <- coerce other ;;
  Return (num self * den o >=? num o * den self).

(** *** Conversions and utilities *)

(** [__int__]: [self.num // self.den]. *)
Definition __int__ (self : FractionDataType) : outcome Z :=
  Py.floordiv (num self) (den self).

Definition simplify (self : FractionDataType) : outcome FractionDataType :=
  new (num self) (den self).

Definition reciprocal (self : FractionDataType) : outcome FractionDataType :=
  if num self =? 0 then Raise (ValueError "Cannot take reciprocal of zero")
  else new (den self) (num self).

Definition as_mixed_number (self : FractionDataType) : outcome (Z * Z * Z) :=
  whole <- Py.floordiv (num self) (den self) ;;
  remainder <- Py.modulo (Z.abs (num self)) (den self) ;;
  Return (whole, remainder, den self).

Definition is_proper (self : FractionDataType) : bool :=
  Z.abs (num self) <? den self.

Definition is_improper (self : FractionDataType) : bool :=
  Z.abs (num self) >=? den self.

Definition from_mixed (whole n d : Z) : outcome FractionDataType :=
  new (whole * d + n) d.

Section FromFloat.

(** [Fraction(f).limit_denominator(max_denominator)] of the standard
    library's [fractions] module, as the pair
    [(frac.numerator, frac.denominator)] it answers, or its failure. *)
Variable limit_denominator : float -> Z -> outcome (Z * Z).

Definition from_float (f : float) (max_denominator : Z) : outcome FractionDataType :=
  frac <- limit_denominator f max_denominator ;;
  new (fst frac) (snd frac).

End FromFloat.

(** *** The canonical form *)

(** [den > 0] and [gcd(|num|, den) = 1]; zero is [0/1]. *)
Definition Reduced (f : FractionDataType) : Prop :=
  0 < den f /\ Z.gcd (Z.abs (num f)) (den f) = 1 /\ (num f = 0 -> den f = 1).

(** The rational number a Fraction stands for (denominator positive). *)
Definition value (f : FractionDataType) : Q :=
  Qmake (num f) (Z.to_pos (den f)).

(** Every value an operation hands back is in canonical form. *)
Definition returns_reduced (o : outcome FractionDataType) : Prop :=
  match o with
  | Return r => Reduced r
  | _ => True
  end.

(** The five comparisons of [f] with an operand decide the order and the
    equality of [value f] and the rational [v]. *)
Definition agrees_with_order (f : FractionDataType) (o : operand) (v : Q) : Prop :=
  (exists b, __lt__ f o = Return b /\ (b = true <-> (value f < v)%Q)) /\
  (exists b, __le__ f o = Return b /\ (b = true <-> (value f <= v)%Q)) /\
  (exists b, __gt__ f o = Return b /\ (b = true <-> (v < value f)%Q)) /\
  (exists b, __ge__ f o = Return b /\ (b = true <-> (v <= value f)%Q)) /\
  (exists b, __eq__ f o = Return b /\ (b = true <-> (value f == v)%Q)).

(** *** The calls of the public interface on integers and Fractions *)

Inductive call : Type :=
| New (n d : Z)
| FromMixed (whole n d : Z)
| Add (self : FractionDataType) (other : operand)
| Radd (self : FractionDataType) (other : operand)
| Sub (self : FractionDataType) (other : operand)
| Rsub (self : FractionDataType) (other : operand)
| Mul (self : FractionDataType) (other : operand)
| Rmul (self : FractionDataType) (other : operand)
| Truediv (self : FractionDataType) (other : operand)
| Rtruediv (self : FractionDataType) (other : operand)
| Floordiv (self : FractionDataType) (other : operand)
| Mod (self : FractionDataType) (other : operand)
| Pow (self : FractionDataType) (exponent : Py.num)
| Neg (self : FractionDataType)
| Pos (self : FractionDataType)
| Abs (self : FractionDataType)
| Eq (self : FractionDataType) (other : operand)
| Ne (self : FractionDataType) (other : operand)
| Lt (self : FractionDataType) (other : operand)
| Le (self : FractionDataType) (other : operand)
| Gt (self : FractionDataType) (other : operand)
| Ge (self : FractionDataType) (other : operand)
| Int (self : FractionDataType)
| Simplify (self : FractionDataType)
| Reciprocal (self : FractionDataType)
| AsMixedNumber (self : FractionDataType)
| IsProper (self : FractionDataType)
| IsImproper (self : FractionDataType).

(** The exception a call ends with, if it ends with one. *)
Definition exn_of {A : Type} (o : outcome A) : option exn :=
  match o with
  | Raise e => Some e
  | _ => None
  end.

Definition failure (c : call) : option exn :=
  match c with
  | New n d => exn_of (new n d)
  | FromMixed w n d => exn_of (from_mixed w n d)
  | Add f o => exn_of (__add__ f o)
  | Radd f o => exn_of (__radd__ f o)
  | Sub f o => exn_of (__sub__ f o)
  | Rsub f o => exn_of (__rsub__ f o)
  | Mul f o => exn_of (__mul__ f o)
  | Rmul f o => exn_of (__rmul__ f o)
  | Truediv f o => exn_of (__truediv__ f o)
  | Rtruediv f o => exn_of (__rtruediv__ f o)
  | Floordiv f o => exn_of (__floordiv__ f o)
  | Mod f o => exn_of (__mod__ f o)
  | Pow f e => exn_of (__pow__ f e)
  | Neg f => exn_of (__neg__ f)
  | Pos f => exn_of (__pos__ f)
  | Abs f => exn_of (__abs__ f)
  | Eq f o => exn_of (__eq__ f o)
  | Ne f o => exn_of (__ne__ f o)
  | Lt f o => exn_of (__lt__ f o)
  | Le f o => exn_of (__le__ f o)
  | Gt f o => exn_of (__gt__ f o)
  | Ge f o => exn_of (__ge__ f o)
  | Int f => exn_of (__int__ f)
  | Simplify f => exn_of (simplify f)
  | Reciprocal f => exn_of (reciprocal f)
  | AsMixedNumber f => exn_of (as_mixed_number f)
  | IsProper _ | IsImproper _ => None
  end.

(** The failures of kind DivisionByZero: the three [ValueError]s the class
    raises about a zero, and the interpreter's own [ZeroDivisionError]. *)
Definition division_by_zero (e : exn) : bool :=
  match e with
  | ValueError msg =>
      (msg =? "Denominator cannot be zero")%string
      || (msg =? "Cannot divide by zero")%string
      || (msg =? "Cannot take reciprocal of zero")%string
  | ZeroDivisionError _ => true
  | _ => false
  end.

Definition fails_with_division_by_zero (c : call) : bool :=
  match failure c with
  | Some e => division_by_zero e
  | None => false
  end.

(** Operands as callers have them: Fractions are canonical. *)
Definition operand_ok (o : operand) : Prop :=
  match o with
  | OFrac g => Reduced g
  | _ => True
  end.

(** An operand that stands for zero: the integer [0] or a Fraction whose
    numerator is [0]. *)
Definition zero_operand (o : operand) : Prop :=
  match o with
  | OInt n => n = 0
  | OFrac g => num g = 0
  | OOther => False
  end.

Definition call_ok (c : call) : Prop :=
  match c with
  | New _ _ | FromMixed _ _ _ => True
  | Add f o | Radd f o | Sub f o | Rsub f o | Mul f o | Rmul f o
  | Truediv f o | Rtruediv f o | Floordiv f o | Mod f o
  | Eq f o | Ne f o | Lt f o | Le f o | Gt f o | Ge f o =>
      Reduced f /\ operand_ok o
  | Pow f _ | Neg f | Pos f | Abs f | Int f | Simplify f | Reciprocal f
  | AsMixedNumber f | IsProper f | IsImproper f => Reduced f
  end.

(** The cases the specification lists: construction with a zero
    denominator, true and floor division by a zero Fraction, reciprocal of
    zero. *)
Definition listed_case (c : call) : Prop :=
  match c with
  | New _ d | FromMixed _ _ d => d = 0
  | Truediv _ o | Floordiv _ o => zero_operand o
  | Rtruediv f o => num f = 0 /\ o <> OOther
  | Reciprocal f => num f = 0
  | _ => False
  end.

(** The cases in which the code raises it: the listed ones, the remainder
    by a zero Fraction, and zero to a negative power. *)
Definition raising_case (c : call) : Prop :=
  match c with
  | Mod _ o => zero_operand o
  | Pow f (PInt e) => num f = 0 /\ e < 0
  | _ => listed_case c
  end.

End Fraction.

(** ** The [math] module and float arithmetic *)

Module Math.

Local Open Scope float_scope.

(** [a / b] on floats: [ZeroDivisionError] when the divisor compares equal
    to zero, the IEEE quotient otherwise. *)
Definition truediv (a b : float) : outcome float :=
  if b =? 0 then Raise (ZeroDivisionError "float division by zero")
  else Return (a / b).

(** The literals [1e-9] and [1e-12] as the binary64 values Python reads. *)
Definition tol_1e_9 : float := 0x1.12e0be826d695p-30.
Definition tol_1e_12 : float := 0x1.19799812dea11p-40.

(** [math.isclose(a, b, rel_tol=..., abs_tol=...)]. *)
Definition isclose (a b rel_tol abs_tol : float) : outcome bool :=
  if (rel_tol <? 0) || (abs_tol <? 0)
  then Raise (ValueError "tolerances must be non-negative")
  else if a =? b then Return true
  else if is_infinity a || is_infinity b then Return false
  else
    let diff := abs (b - a) in
    Return ((diff <=? abs (rel_tol * b)) || (diff <=? abs (rel_tol * a))
            || (diff <=? abs_tol)).

(** The defaults of the keyword arguments. *)
Definition default_rel_tol : float := tol_1e_9.
Definition default_abs_tol : float := 0.

End Math.

(** ** cordination_geo.py *)

Module Geo.

Record Point : Type := BuildPoint { x : float; y : float }.
Record Line : Type := BuildLine { A : float; B : float; C : float }.

(** Any Python object handed to a method that tests [isinstance]. *)
Inductive object : Type :=
| PointObj (p : Point)
| LineObj (l : Line)
| OtherObj.

(** The failures of kind DomainError: the two [ValueError]s the module
    raises on degenerate geometry. *)
Definition domain_error (e : exn) : bool :=
  match e with
  | ValueError msg =>
      (msg =? "Cannot normalize zero-length vector")%string
      || (msg =? "Invalid line coefficients")%string
  | _ => false
  end.

(** A call that ends in a DomainError. *)
Definition fails_with_domain_error {A : Type} (o : outcome A) : bool :=
  match o with
  | Raise e => domain_error e
  | _ => false
  end.

End Geo.

Module Point.

Import Geo.
Local Open Scope float_scope.

(** [Point.__init__]: [self.x = float(x)], [self.y = float(y)]. *)
Definition __init__ (x0 y0 : Py.num) : outcome Point :=
  fx <- float_ x0 ;;
  fy <- float_ y0 ;;
  Return (BuildPoint fx fy).

(** [Point(a, b)] on two floats. *)
Definition new (a b : float) : outcome Point := __init__ (PFloat a) (PFloat b).

Definition __eq__ (self : Point) (other : object) : outcome bool :=
  match other with
  | PointObj o =>
      cx <- Math.isclose (x self) (x o) Math.tol_1e_9 Math.tol_1e_9 ;;
      if cx then Math.isclose (y self) (y o) Math.tol_1e_9 Math.tol_1e_9
      else Return false
  | _ => Return false
  end.

Definition __add__ (self : Point) (other : object) : outcome Point :=
  match other with
  | PointObj o => new (x self + x o) (y self + y o)
  | _ => NotImplemented
  end.

Definition __sub__ (self : Point) (other : object) : outcome Point :=
  match other with
  | PointObj o => new (x self - x o) (y self - y o)
  | _ => NotImplemented
  end.

Definition __neg__ (self : Point) : outcome Point :=
  new (- x self) (- y self).

Definition to_tuple (self : Point) : float * float := (x self, y self).

Definition from_tuple (t : float * float) : outcome Point := new (fst t) (snd t).

Definition copy (self : Point) : outcome Point := new (x self) (y self).

Definition dot (self : Point) (other : object) : outcome float :=
  match other with
  | PointObj o => Return (x self * x o + y self * y o)
  | _ => Raise (ValueError "Argument must be a Point instance")
  end.

Definition cross (self : Point) (other : object) : outcome float :=
  match other with
  | PointObj o => Return (x self * y o - y self * x o)
  | _ => Raise (ValueError "Argument must be a Point instance")
  end.

Definition midpoint (self : Point) (other : object) : outcome Point :=
  match other with
  | PointObj o =>
      mx <- Math.truediv (x self + x o) 2 ;;
      my <- Math.truediv (y self + y o) 2 ;;
      new mx my
  | _ => Raise (ValueError "Argument must be a Point instance")
  end.

Section Hypot.

(** [math.hypot], the platform's Euclidean norm of two floats. *)
Variable hypot : float -> float -> float.

Definition distance_to (self : Point) (other : object) : outcome float :=
  match other with
  | PointObj o => Return (hypot (x self - x o) (y self - y o))
  | _ => Raise (ValueError "Argument must be a Point instance")
  end.

Definition distance_from_origin (self : Point) : float :=
  hypot (x self) (y self).

Definition magnitude (self : Point) : float :=
  distance_from_origin self.

Definition length : Point -> float := magnitude.

Definition normalize (self : Point) : outcome Point :=
  let m := magnitude self in
  if m =? 0 then Raise (ValueError "Cannot normalize zero-length vector")
  else
    nx <- Math.truediv (x self) m ;;
    ny <- Math.truediv (y self) m ;;
    new nx ny.

End Hypot.

End Point.

Module Line.

Import Geo.
Local Open Scope float_scope.

(** [Line.__init__]: the three coefficients through [float()]. *)
Definition __init__ (a b c : Py.num) : outcome Line :=
  fa <- float_ a ;;
  fb <- float_ b ;;
  fc <- float_ c ;;
  Return (BuildLine fa fb fc).

(** [Line(a, b, c)] on three floats. *)
Definition new (a b c : float) : outcome Line :=
  __init__ (PFloat a) (PFloat b) (PFloat c).

Definition from_points (p1 p2 : object) : outcome Line :=
  match p1, p2 with
  | PointObj p1, PointObj p2 =>
      let a := y p1 - y p2 in
      let b := x p2 - x p1 in
      let c := x p1 * y p2 - x p2 * y p1 in
      new a b c
  | _, _ => Raise (ValueError "Arguments must be Point instances")
  end.

Definition as_coeffs (self : Line) : float * float * float :=
  (A self, B self, C self).

Definition is_vertical (self : Line) : outcome bool :=
  Math.isclose (B self) 0 Math.default_rel_tol Math.tol_1e_12.

Definition is_horizontal (self : Line) : outcome bool :=
  Math.isclose (A self) 0 Math.default_rel_tol Math.tol_1e_12.

Definition slope (self : Line) : outcome (option float) :=
  v <- is_vertical self ;;
  if v then Return None
  else s <- Math.truediv (- A self) (B self) ;; Return (Some s).

Definition contains_point (self : Line) (point : object) : outcome bool :=
  match point with
  | PointObj p =>
      Math.isclose (A self * x p + B self * y p + C self) 0
        Math.default_rel_tol Math.tol_1e_9
  | _ => Raise (ValueError "Argument must be a Point instance")
  end.

Definition is_parallel (self : Line) (other : object) : outcome bool :=
  match other with
  | LineObj o =>
      Math.isclose (A self * B o) (A o * B self) Math.tol_1e_9 Math.tol_1e_12
  | _ => Raise (ValueError "Argument must be a Line instance")
  end.

Definition is_perpendicular (self : Line) (other : object) : outcome bool :=
  match other with
  | LineObj o =>
      Math.isclose (A self * A o + B self * B o) 0
        Math.default_rel_tol Math.tol_1e_9
  | _ => Raise (ValueError "Argument must be a Line instance")
  end.

Definition intersection_with (self : Line) (other : object) : outcome (option Point) :=
  match other with
  | LineObj o =>
      let determinant := A self * B o - A o * B self in
      parallel <- Math.isclose determinant 0 Math.default_rel_tol Math.tol_1e_12 ;;
      if parallel then Return None
      else
        px <- Math.truediv (B self * C o - B o * C self) determinant ;;
        py <- Math.truediv (A o * C self - A self * C o) determinant ;;
        p <- Point.new px py ;;
        Return (Some p)
  | _ => Raise (ValueError "Argument must be a Line instance")
  end.

Definition parallel_through (self : Line) (point : object) : outcome Line :=
  match point with
  | PointObj p =>
      let c := - (A self * x p + B self * y p) in
      new (A self) (B self) c
  | _ => Raise (ValueError "Argument must be a Point instance")
  end.

Definition perpendicular_through (self : Line) (point : object) : outcome Line :=
  match point with
  | PointObj p =>
      let A_p := B self in
      let B_p := - A self in
      let C_p := - (A_p * x p + B_p * y p) in
      new A_p B_p C_p
  | _ => Raise (ValueError "Argument must be a Point instance")
  end.

Section Libm.

(** [math.hypot], and [float.__pow__] (C's [pow] behind Python's range
    checks), as the platform provides them. *)
Variable hypot : float -> float -> float.
Variable float_pow : float -> float -> outcome float.

Definition shortest_distance_to_point (self : Line) (point : object) : outcome float :=
  match point with
  | PointObj p =>
      let numerator := abs (A self * x p + B self * y p + C self) in
      let denominator := hypot (A self) (B self) in
      Math.truediv numerator denominator
  | _ => Raise (ValueError "Argument must be a Point instance")
  end.

Definition project_point (self : Line) (point : object) : outcome Point :=
  match point with
  | PointObj p =>
      a2 <- float_pow (A self) 2 ;;
      b2 <- float_pow (B self) 2 ;;
      let denom := a2 + b2 in
      degenerate <- Math.isclose denom 0 Math.default_rel_tol Math.default_abs_tol ;;
      if degenerate then Raise (ValueError "Invalid line coefficients")
      else
        factor <- Math.truediv (A self * x p + B self * y p + C self) denom ;;
        let px := x p - A self * factor in
        let py := y p - B self * factor in
        Point.new px py
  | _ => Raise (ValueError "Argument must be a Point instance")
  end.

Definition unit_normal (self : Line) : outcome Point :=
  let s := hypot (A self) (B self) in
  degenerate <- Math.isclose s 0 Math.default_rel_tol Math.default_abs_tol ;;
  if degenerate then Raise (ValueError "Invalid line coefficients")
  else
    nx <- Math.truediv (A self) s ;;
    ny <- Math.truediv (B self) s ;;
    Point.new nx ny.

(** [distance] arrives as a float. *)
Definition offset (self : Line) (distance : float) : outcome Line :=
  let s := hypot (A self) (B self) in
  degenerate <- Math.isclose s 0 Math.default_rel_tol Math.default_abs_tol ;;
  if degenerate then Raise (ValueError "Invalid line coefficients")
  else new (A self) (B self) (C self - s * distance).

End Libm.

End Line.

(** ** Statements about rational values *)

Module FractionSpec.

Import Fraction.

(** A call that returns the canonical Fraction of the rational [q]. *)
Definition returns_value (o : outcome FractionDataType) (q : Q) : Prop :=
  exists r, o = Return r /\ Reduced r /\ (value r == q)%Q.

End FractionSpec.

(** * Properties of FractionDataType *)

Module FractionFacts.

Import Fraction.

Ltac zbool :=
  repeat match goal with
  | H : (_ =? _) = true |- _ => apply Z.eqb_eq in H
  | H : (_ =? _) = false |- _ => apply Z.eqb_neq in H
  | H : (_ <? _) = true |- _ => apply Z.ltb_lt in H
  | H : (_ <? _) = false |- _ => apply Z.ltb_ge in H
  | H : (_ <=? _) = true |- _ => apply Z.leb_le in H
  | H : (_ <=? _) = false |- _ => apply Z.leb_gt in H
  end.

(** The constructor on two integers, in closed form. *)
Lemma new_eq (n d : Z) :
  new n d =
  if d =? 0 then Raise (ValueError "Denominator cannot be zero")
  else Return (Build (Z.sgn d * n / Z.gcd n d) (Z.abs d / Z.gcd n d)).
Proof.
  unfold new, __init__; cbn.
  destruct (d =? 0) eqn:Hd; [reflexivity|]. zbool.
  assert (Hg : Z.gcd n d <> 0) by (intros H; apply Z.gcd_eq_0_r in H; contradiction).
  destruct (d <? 0) eqn:Hs; zbool; cbv zeta;
    rewrite Z.gcd_abs_l, Z.gcd_abs_r, ?Z.gcd_opp_l, ?Z.gcd_opp_r;
    unfold Py.floordiv; apply Z.eqb_neq in Hg; rewrite Hg; cbn.
  - rewrite Z.sgn_neg, Z.abs_neq by lia.
    replace (-1 * n) with (- n) by lia. reflexivity.
  - rewrite Z.sgn_pos, Z.abs_eq by lia.
    rewrite Z.mul_1_l. reflexivity.
Qed.

Lemma new_zero_den (n : Z) :
  new n 0 = Raise (ValueError "Denominator cannot be zero").
Proof. rewrite new_eq. reflexivity. Qed.

(** A nonzero denominator always yields a canonical Fraction of the same
    value. *)
Lemma new_returns (n d : Z) :
  d <> 0 ->
  exists f, new n d = Return f /\ Reduced f /\ num f * d = n * den f.
Proof.
  intros Hd. rewrite new_eq.
  apply Z.eqb_neq in Hd as Hd'. rewrite Hd'.
  eexists; split; [reflexivity|]. cbn [num den].
  set (g := Z.gcd n d).
  assert (Hg0 : g <> 0) by (unfold g; intros H; apply Z.gcd_eq_0_r in H; contradiction).
  assert (Hgpos : 0 < g) by (pose proof (Z.gcd_nonneg n d); fold g in H; lia).
  destruct (Z.gcd_divide_l n d) as [n' Hn]. fold g in Hn.
  destruct (Z.gcd_divide_r n d) as [d' Hd2]. fold g in Hd2.
  assert (Hcop : Z.gcd n' d' = 1).
  { pose proof (Z.gcd_div_gcd n d g Hg0 eq_refl) as H.
    rewrite Hn, Hd2 in H at 1. rewrite !Z.div_mul in H by assumption. exact H. }
  assert (Hd'0 : d' <> 0) by (intros ->; lia).
  assert (E1 : Z.sgn d * n / g = Z.sgn d * n').
  { rewrite Hn. rewrite Z.mul_assoc, Z.div_mul by assumption. reflexivity. }
  assert (E2 : Z.abs d / g = Z.abs d').
  { rewrite Hd2, Z.abs_mul, (Z.abs_eq g) by lia. apply Z.div_mul; assumption. }
  rewrite E1, E2.
  assert (Hsgn : Z.sgn d = Z.sgn d').
  { rewrite Hd2, Z.sgn_mul, (Z.sgn_pos g) by lia. lia. }
  assert (Habs : Z.abs (Z.sgn d * n') = Z.abs n').
  { rewrite Z.abs_mul, Hsgn.
    destruct d' as [|p|p]; [contradiction | |]; cbn [Z.sgn];
      [change (Z.abs 1) with 1 | change (Z.abs (-1)) with 1]; lia. }
  unfold Reduced; cbn [num den]. repeat split.
  - lia.
  - rewrite Habs, Z.gcd_abs_l, Z.gcd_abs_r. exact Hcop.
  - intros Hz. assert (n' = 0).
    { rewrite Hsgn in Hz. destruct d' as [|p|p]; [contradiction | |]; cbn [Z.sgn] in Hz; lia. }
    subst n'. rewrite Z.gcd_0_l in Hcop. exact Hcop.
  - rewrite Hsgn. rewrite Hn, Hd2.
    destruct d' as [|p|p]; cbn [Z.sgn Z.abs]; try lia.
Qed.

(** Two canonical Fractions of the same value are the same pair. *)
Lemma reduced_unique (f g : FractionDataType) :
  Reduced f -> Reduced g -> num f * den g = num g * den f -> f = g.
Proof.
  destruct f as [a b], g as [c d]; unfold Reduced; cbn.
  intros (Hb & Hab & _) (Hd & Hcd & _) E.
  rewrite Z.gcd_abs_l in Hab, Hcd.
  assert (Hbd : (b | d)).
  { apply Z.gauss with (m := a); [|rewrite Z.gcd_comm; exact Hab].
    exists c. lia. }
  assert (Hdb : (d | b)).
  { apply Z.gauss with (m := c); [|rewrite Z.gcd_comm; exact Hcd].
    exists a. lia. }
  assert (b = d) by (apply Z.divide_antisym_nonneg; solve [lia | assumption]).
  subst d. f_equal. nia.
Qed.

(** Rebuilding a canonical Fraction from its own pair changes nothing. *)
Lemma new_of_reduced (f : FractionDataType) :
  Reduced f -> new (num f) (den f) = Return f.
Proof.
  intros Hf. destruct (new_returns (num f) (den f)) as (r & Hr & Hred & Hval).
  { destruct Hf; lia. }
  rewrite Hr. f_equal. apply reduced_unique; assumption.
Qed.

Lemma new_int (n : Z) : new n 1 = Return (Build n 1).
Proof.
  rewrite new_eq. cbn. rewrite Z.gcd_1_r, Z.div_1_r. do 2 f_equal. destruct n; reflexivity.
Qed.

Lemma new_reduced (n d : Z) : returns_reduced (new n d).
Proof.
  destruct (Z.eq_dec d 0) as [->|Hd].
  - rewrite new_zero_den. exact I.
  - destruct (new_returns n d Hd) as (r & -> & Hr & _). exact Hr.
Qed.

(** Every operation ends in a call of the constructor: walk down the
    method to that call. *)
Ltac to_constructor :=
  repeat match goal with
  | |- returns_reduced (new _ _) => apply new_reduced
  | |- returns_reduced (Raise _) => exact I
  | |- returns_reduced NotImplemented => exact I
  | |- returns_reduced (bind ?o _) => destruct o; cbn [bind]
  | |- returns_reduced (if ?b then _ else _) => destruct b
  | |- returns_reduced (match ?v with _ => _ end) => destruct v
  | |- returns_reduced (let _ := _ in _) => cbv zeta
  end.

Lemma new_returned (n d : Z) : d <> 0 -> returned (new n d).
Proof.
  intros Hd. destruct (new_returns n d Hd) as (r & Hr & _). exists r. exact Hr.
Qed.

(** On canonical operands the operators do hand back a Fraction; only a
    zero divisor, and zero as the base of a reciprocal, are refused. *)
Lemma canonical_operands_return (f g : FractionDataType) :
  Reduced f -> Reduced g ->
  returned (__add__ f (OFrac g)) /\
  returned (__sub__ f (OFrac g)) /\
  returned (__mul__ f (OFrac g)) /\
  (num g <> 0 -> returned (__truediv__ f (OFrac g))) /\
  (num g <> 0 -> returned (__mod__ f (OFrac g))) /\
  returned (__neg__ f) /\
  returned (__pos__ f) /\
  returned (__abs__ f) /\
  returned (simplify f) /\
  (num f <> 0 -> returned (reciprocal f)).
Proof.
  intros Hf Hg.
  assert (Hb : 0 < den f) by apply Hf.
  assert (Hd : 0 < den g) by apply Hg.
  unfold __add__, __sub__, __mul__, __truediv__, __neg__, __pos__, __abs__,
    simplify, reciprocal.
  cbn [coerce bind]. cbv zeta.
  repeat split; try (apply new_returned; nia).
  - intros Hc. apply Z.eqb_neq in Hc as Hc'. rewrite Hc'. apply new_returned. nia.
  - intros Hc. unfold __mod__, __floordiv__, Py.floordiv. cbn [coerce bind].
    apply Z.eqb_neq in Hc as Hc'. rewrite Hc'.
    assert (H : (den f * num g =? 0) = false) by (apply Z.eqb_neq; nia).
    rewrite H. cbn [bind]. unfold __mul__. cbn [coerce]. rewrite new_int.
    cbn [bind num den]. cbv zeta.
    destruct (new_returns (num g * (num f * den g / (den f * num g))) (den g * 1))
      as (p & -> & Hp & _); [lia|].
    cbn [bind]. unfold __sub__. cbn [coerce bind]. cbv zeta.
    apply new_returned. destruct Hp. nia.
  - intros Hc. apply Z.eqb_neq in Hc as Hc'. rewrite Hc'. apply new_returned. lia.
Qed.

(** C1. Whatever Fraction a caller receives -- from the constructor on two
    integers, from an arithmetic or unary operator, from [simplify],
    [reciprocal], [from_mixed] or [from_float] -- has a positive denominator
    and is in lowest terms, zero being [0/1].  The constructor does return
    one whenever the denominator is not zero, and so do the operators on
    canonical operands. *)
Theorem returned_fraction_is_reduced
    (limit_denominator : float -> Z -> outcome (Z * Z))
    (self : FractionDataType) (other : operand) (exponent : Py.num)
    (n d whole : Z) (x : float) (max_denominator : Z) :
  (d <> 0 -> exists r, new n d = Return r /\ Reduced r) /\
  (forall g, Reduced self -> Reduced g ->
             returned (__add__ self (OFrac g)) /\
             returned (__sub__ self (OFrac g)) /\
             returned (__mul__ self (OFrac g)) /\
             (num g <> 0 -> returned (__truediv__ self (OFrac g))) /\
             (num g <> 0 -> returned (__mod__ self (OFrac g)))) /\
  returns_reduced (new n d) /\
  returns_reduced (__add__ self other) /\
  returns_reduced (__radd__ self other) /\
  returns_reduced (__sub__ self other) /\
  returns_reduced (__rsub__ self other) /\
  returns_reduced (__mul__ self other) /\
  returns_reduced (__rmul__ self other) /\
  returns_reduced (__truediv__ self other) /\
  returns_reduced (__rtruediv__ self other) /\
  returns_reduced (__mod__ self other) /\
  returns_reduced (__pow__ self exponent) /\
  returns_reduced (__neg__ self) /\
  returns_reduced (__pos__ self) /\
  returns_reduced (__abs__ self) /\
  returns_reduced (simplify self) /\
  returns_reduced (reciprocal self) /\
  returns_reduced (from_mixed whole n d) /\
  returns_reduced (from_float limit_denominator x max_denominator).
Proof.
  split.
  { intros Hd. destruct (new_returns n d Hd) as (r & Hr & Hred & _). eauto. }
  split.
  { intros g Hs Hg.
    destruct (canonical_operands_return self g Hs Hg) as (H1 & H2 & H3 & H4 & H5 & _).
    auto. }
  unfold __radd__, __rsub__, __rmul__, __rtruediv__, __mod__, __add__, __sub__,
    __mul__, __truediv__, __pow__, __neg__, __pos__, __abs__, simplify,
    reciprocal, from_mixed, from_float.
  repeat split; to_constructor.
Qed.

(** [FractionDataType(6, 8)] is [3/4], the sign moves to the numerator, and
    zero is [0/1]. *)
Lemma returned_fraction_is_reduced_witness :
  (exists r, new 6 (-8) = Return r /\ Reduced r) /\
  new 6 (-8) = Return (Build (-3) 4) /\
  new 6 8 = Return (Build 3 4) /\
  new 0 5 = Return (Build 0 1).
Proof.
  split; [|repeat split].
  apply (returned_fraction_is_reduced
           (fun _ _ => Return (3, 4)) (Build 3 4) (OInt 2) (PInt 2) 6 (-8) 0
           PrimFloat.zero 10000).
  discriminate.
Defined.

(** Outside the integer pairs the constructor's truncation comes after its
    zero test: [FractionDataType(6.0, 8.0)] is [3/4] and
    [FractionDataType(1, 0.0)] is refused, but [FractionDataType(1, 0.5)]
    leaves the pair [(1, 0)]. *)
Example float_arguments :
  __init__ (PFloat 6) (PFloat 8) = Return (Build 3 4) /\
  __init__ (PInt 1) (PFloat 0) = Raise (ValueError "Denominator cannot be zero") /\
  __init__ (PInt 1) (PFloat 0.5) = Return (Build 1 0).
Proof. repeat split; vm_compute; reflexivity. Qed.

(** C10. The zero Fraction raised to a negative integer fails with the
    constructor's zero-denominator error: [FractionDataType(0, 1) ** (-n)]
    builds [FractionDataType(1 ** n, 0 ** n)]. *)
Theorem pow_zero_negative_raises (n : Z) :
  0 < n ->
  (zero <- new 0 1 ;; __pow__ zero (PInt (- n)))
  = Raise (ValueError "Denominator cannot be zero").
Proof.
  intros Hn. rewrite new_int. cbn [bind]. unfold __pow__. cbn [num den].
  assert (H : (- n <? 0) = true) by (apply Z.ltb_lt; lia). rewrite H.
  rewrite Z.opp_involutive, Z.pow_0_l by assumption.
  apply new_zero_den.
Qed.

Lemma pow_zero_negative_raises_witness :
  0 < 1 /\
  (zero <- new 0 1 ;; __pow__ zero (PInt (- (1))))
  = Raise (ValueError "Denominator cannot be zero").
Proof.
  split; [lia | apply (pow_zero_negative_raises 1); lia].
Defined.

(** C5. Dividing by a nonzero Fraction and multiplying back gives the
    Fraction one started from: the product is the very pair [f], and [==]
    answers [True]. *)
Theorem truediv_then_mul_cancels (f g : FractionDataType) :
  Reduced f -> Reduced g -> num g <> 0 ->
  (q <- __truediv__ f (OFrac g) ;; __mul__ q (OFrac g)) = Return f /\
  (q <- __truediv__ f (OFrac g) ;; p <- __mul__ q (OFrac g) ;; __eq__ p (OFrac f))
  = Return true.
Proof.
  intros Hf Hg Hg0.
  assert (Hb : 0 < den f) by apply Hf.
  assert (Hd : 0 < den g) by apply Hg.
  unfold __truediv__. cbn [coerce bind].
  apply Z.eqb_neq in Hg0 as Hg0'. rewrite Hg0'.
  destruct (new_returns (num f * den g) (den f * num g)) as (q & Hq & Hqr & Hqv);
    [nia|].
  rewrite Hq. cbn [bind]. unfold __mul__. cbn [coerce bind]. cbv zeta.
  assert (Hdq : 0 < den q) by apply Hqr.
  destruct (new_returns (num q * num g) (den q * den g)) as (p & Hp & Hpr & Hpv);
    [nia|].
  rewrite Hp. cbn [bind].
  assert (E : p = f).
  { apply reduced_unique; try assumption.
    apply Z.mul_reg_r with (p := den q * den g); [nia|].
    apply Z.mul_reg_r with (p := num g); [assumption|].
    replace (num p * den f * (den q * den g) * num g)
      with (num p * (den q * den g) * (den f * num g)) by ring.
    rewrite Hpv.
    replace (num q * num g * den p * (den f * num g))
      with (num q * (den f * num g) * (num g * den p)) by ring.
    rewrite Hqv. ring. }
  subst p. split; [reflexivity|].
  unfold __eq__. cbn [coerce bind]. rewrite !Z.eqb_refl. reflexivity.
Qed.

Lemma truediv_then_mul_cancels_witness :
  (q <- __truediv__ (Build 3 4) (OFrac (Build (-2) 5)) ;; __mul__ q (OFrac (Build (-2) 5)))
  = Return (Build 3 4).
Proof.
  apply (truediv_then_mul_cancels (Build 3 4) (Build (-2) 5));
    unfold Reduced; cbn [num den]; repeat split; solve [reflexivity | lia].
Defined.

(** *** Floor division *)

Lemma inject_Z_nonzero (z : Z) : z <> 0 -> ~ (inject_Z z == 0)%Q.
Proof. intros Hz H. unfold Qeq in H. cbn in H. lia. Qed.

Lemma Qfloor_div_Z (a b : Z) :
  b <> 0 -> Qfloor (inject_Z a / inject_Z b) = a / b.
Proof.
  intros Hb. destruct b as [|p|p]; [contradiction | |].
  - unfold Qdiv, Qinv, Qmult, Qfloor, inject_Z. cbn.
    rewrite Z.mul_1_r. reflexivity.
  - unfold Qdiv, Qinv, Qmult, Qfloor, inject_Z. cbn.
    replace (a * -1) with (- a) by lia.
    change (Z.pos p) with (- Z.neg p).
    apply Z.div_opp_opp. discriminate.
Qed.

Lemma value_as_quotient (f : FractionDataType) :
  0 < den f -> (value f == inject_Z (num f) / inject_Z (den f))%Q.
Proof.
  intros Hd. unfold value. rewrite Qmake_Qdiv, Z2Pos.id by assumption.
  reflexivity.
Qed.

Lemma value_quotient (f g : FractionDataType) :
  0 < den f -> 0 < den g -> num g <> 0 ->
  (value f / value g == inject_Z (num f * den g) / inject_Z (den f * num g))%Q.
Proof.
  intros Hb Hd Hc.
  rewrite (value_as_quotient f Hb), (value_as_quotient g Hd).
  rewrite !inject_Z_mult.
  field. repeat split; apply inject_Z_nonzero; lia.
Qed.

(** C7. Floor division of [a/b] by a nonzero [c/d] returns the integer
    [floor((a*d)/(b*c))], the greatest integer not above the quotient of
    the two values -- it rounds toward negative infinity whatever the signs
    of the operands. *)
Theorem floordiv_is_mathematical_floor (f g : FractionDataType) :
  Reduced f -> Reduced g -> num g <> 0 ->
  exists q : Z,
    __floordiv__ f (OFrac g) = Return q /\
    q = Qfloor (inject_Z (num f * den g) / inject_Z (den f * num g)) /\
    q = Qfloor (value f / value g) /\
    (inject_Z q <= value f / value g)%Q /\
    (value f / value g < inject_Z (q + 1))%Q.
Proof.
  intros Hf Hg Hc.
  assert (Hb : 0 < den f) by apply Hf.
  assert (Hd : 0 < den g) by apply Hg.
  assert (Hbc : den f * num g <> 0) by nia.
  unfold __floordiv__, Py.floordiv. cbn [coerce bind].
  apply Z.eqb_neq in Hc as Hc'. rewrite Hc'.
  apply Z.eqb_neq in Hbc as Hbc'. rewrite Hbc'.
  eexists; split; [reflexivity|].
  assert (E1 : num f * den g / (den f * num g)
               = Qfloor (inject_Z (num f * den g) / inject_Z (den f * num g)))
    by (symmetry; apply Qfloor_div_Z; assumption).
  assert (E2 : num f * den g / (den f * num g) = Qfloor (value f / value g)).
  { rewrite E1. apply Qfloor_comp. symmetry. apply value_quotient; assumption. }
  split; [exact E1|]. split; [exact E2|].
  rewrite E2. split; [apply Qfloor_le | apply Qlt_floor].
Qed.

(** For [-7/2] and [1/1] the quotient is [-4], not the truncation [-3]. *)
Lemma floordiv_is_mathematical_floor_witness :
  exists q : Z,
    __floordiv__ (Build (-7) 2) (OFrac (Build 1 1)) = Return q /\
    q = Qfloor (inject_Z (-7 * 1) / inject_Z (2 * 1)) /\
    q = Qfloor (value (Build (-7) 2) / value (Build 1 1)) /\
    (inject_Z q <= value (Build (-7) 2) / value (Build 1 1))%Q /\
    (value (Build (-7) 2) / value (Build 1 1) < inject_Z (q + 1))%Q.
Proof.
  apply (floordiv_is_mathematical_floor (Build (-7) 2) (Build 1 1));
    unfold Reduced; cbn [num den]; repeat split; solve [reflexivity | lia].
Defined.

Example floordiv_negative :
  __floordiv__ (Build (-7) 2) (OFrac (Build 1 1)) = Return (-4) /\
  __floordiv__ (Build 7 2) (OFrac (Build (-1) 1)) = Return (-4) /\
  __floordiv__ (Build (-7) 2) (OInt (-1)) = Return 3.
Proof. repeat split. Qed.

(** *** Comparisons *)

Lemma value_lt (f g : FractionDataType) :
  0 < den f -> 0 < den g ->
  (value f < value g)%Q <-> num f * den g < num g * den f.
Proof.
  intros Hb Hd. unfold Qlt, value. cbn. rewrite !Z2Pos.id by assumption.
  reflexivity.
Qed.

Lemma value_le (f g : FractionDataType) :
  0 < den f -> 0 < den g ->
  (value f <= value g)%Q <-> num f * den g <= num g * den f.
Proof.
  intros Hb Hd. unfold Qle, value. cbn. rewrite !Z2Pos.id by assumption.
  reflexivity.
Qed.

Lemma value_eq (f g : FractionDataType) :
  Reduced f -> Reduced g -> (value f == value g)%Q <-> f = g.
Proof.
  intros Hf Hg. split.
  - unfold Qeq, value. cbn.
    rewrite !Z2Pos.id by (apply Hf || apply Hg).
    intros E. apply reduced_unique; assumption.
  - intros ->. reflexivity.
Qed.

Lemma reduced_int (n : Z) : Reduced (Build n 1).
Proof.
  unfold Reduced; cbn. rewrite Z.gcd_1_r. repeat split; lia.
Qed.

Lemma compare_fraction (f g : FractionDataType) :
  Reduced f -> Reduced g -> agrees_with_order f (OFrac g) (value g).
Proof.
  intros Hf Hg.
  assert (Hb : 0 < den f) by apply Hf.
  assert (Hd : 0 < den g) by apply Hg.
  unfold agrees_with_order, __lt__, __le__, __gt__, __ge__, __eq__.
  cbn [coerce bind].
  repeat split; eexists; (split; [reflexivity|]).
  - rewrite Z.ltb_lt. symmetry. apply value_lt; assumption.
  - rewrite Z.leb_le. symmetry. apply value_le; assumption.
  - rewrite Z.gtb_ltb, Z.ltb_lt. symmetry. apply value_lt; assumption.
  - rewrite Z.geb_leb, Z.leb_le. symmetry. apply value_le; assumption.
  - rewrite (value_eq f g Hf Hg). rewrite andb_true_iff, !Z.eqb_eq.
    destruct f, g; cbn. split; [intros [-> ->]; reflexivity | intros [=]; auto].
Qed.

(** C8. On canonical Fractions the cross-multiplied comparisons [<], [<=],
    [>], [>=] and the pairwise [==] decide the order and the equality of the
    rational values; an integer operand [n] is compared as [n/1]. *)
Theorem comparisons_agree_with_rational_order
    (f g : FractionDataType) (n : Z) :
  Reduced f -> Reduced g ->
  agrees_with_order f (OFrac g) (value g) /\
  agrees_with_order f (OInt n) (inject_Z n).
Proof.
  intros Hf Hg. split.
  - apply compare_fraction; assumption.
  - pose proof (compare_fraction f (Build n 1) Hf (reduced_int n)) as H.
    unfold agrees_with_order, __lt__, __le__, __gt__, __ge__, __eq__ in *.
    cbn [coerce] in *. rewrite new_int. exact H.
Qed.

Lemma comparisons_agree_with_rational_order_witness :
  agrees_with_order (Build (-1) 2) (OFrac (Build 1 3)) (value (Build 1 3)) /\
  agrees_with_order (Build (-1) 2) (OInt 0) (inject_Z 0).
Proof.
  apply (comparisons_agree_with_rational_order (Build (-1) 2) (Build 1 3) 0);
    unfold Reduced; cbn [num den]; repeat split; solve [reflexivity | lia].
Defined.

(** *** Mixed numbers *)

(** C9. [as_mixed_number] answers [(num // den, |num| % den, den)], and for
    a Fraction that is not negative [from_mixed] applied to that triple gives
    the Fraction back. *)
Theorem mixed_number_round_trip (f : FractionDataType) :
  Reduced f ->
  as_mixed_number f = Return (num f / den f, Z.abs (num f) mod den f, den f) /\
  (0 <= num f ->
   (t <- as_mixed_number f ;;
    let '(whole, remainder, d) := t in from_mixed whole remainder d) = Return f /\
   (t <- as_mixed_number f ;;
    r <- (let '(whole, remainder, d) := t in from_mixed whole remainder d) ;;
    __eq__ r (OFrac f)) = Return true).
Proof.
  intros Hf.
  assert (Hd : 0 < den f) by apply Hf.
  assert (Hd0 : (den f =? 0) = false) by (apply Z.eqb_neq; lia).
  assert (E : as_mixed_number f
              = Return (num f / den f, Z.abs (num f) mod den f, den f)).
  { unfold as_mixed_number, Py.floordiv, Py.modulo. rewrite Hd0. reflexivity. }
  rewrite E. cbn [bind]. split; [reflexivity|]. intros Hn.
  assert (R : from_mixed (num f / den f) (Z.abs (num f) mod den f) (den f) = Return f).
  { unfold from_mixed. rewrite Z.abs_eq by assumption.
    replace (num f / den f * den f + num f mod den f) with (num f)
      by (rewrite (Z.div_mod (num f) (den f)) at 1; lia).
    apply new_of_reduced; assumption. }
  rewrite R. cbn [bind]. repeat split.
  unfold __eq__. cbn [coerce bind]. rewrite !Z.eqb_refl. reflexivity.
Qed.

Lemma mixed_number_round_trip_witness :
  as_mixed_number (Build 7 3) = Return (2, 1, 3) /\
  (t <- as_mixed_number (Build 7 3) ;;
   let '(whole, remainder, d) := t in from_mixed whole remainder d)
  = Return (Build 7 3).
Proof.
  destruct (mixed_number_round_trip (Build 7 3)) as [H1 H2].
  - unfold Reduced; cbn [num den]; repeat split; solve [reflexivity | lia].
  - split; [exact H1 | apply H2; cbn [num]; lia].
Defined.

(** [FractionDataType(7, 3).as_mixed_number() == (2, 1, 3)], and the round
    trip through [from_mixed(2, 1, 3)]. *)
Example mixed_number_7_3 :
  (f <- new 7 3 ;; as_mixed_number f) = Return (2, 1, 3) /\
  from_mixed 2 1 3 = new 7 3.
Proof. split; reflexivity. Qed.

(** A negative Fraction does not survive the round trip: [-7/3] comes back
    as [-8/3]. *)
Example mixed_number_negative :
  as_mixed_number (Build (-7) 3) = Return (-3, 1, 3) /\
  from_mixed (-3) 1 3 = Return (Build (-8) 3).
Proof. split; reflexivity. Qed.

End FractionFacts.

Module FractionErrors.

Import Fraction FractionFacts.

Lemma exn_new (n d : Z) :
  exn_of (new n d)
  = if d =? 0 then Some (ValueError "Denominator cannot be zero") else None.
Proof. rewrite new_eq. destruct (d =? 0); reflexivity. Qed.

Lemma coerce_ok (o : operand) :
  operand_ok o ->
  (o = OOther /\ coerce o = NotImplemented) \/
  (exists g, coerce o = Return g /\ Reduced g /\ (num g = 0 <-> zero_operand o)).
Proof.
  destruct o as [n|g|]; cbn [operand_ok coerce zero_operand]; intros H.
  - right. exists (Build n 1). rewrite new_int.
    split; [reflexivity|]. split; [apply reduced_int | reflexivity].
  - right. exists g. split; [reflexivity|]. split; [exact H | reflexivity].
  - left. split; reflexivity.
Qed.

Lemma exn_new_nonzero (n d : Z) : d <> 0 -> exn_of (new n d) = None.
Proof. intros H. rewrite exn_new. apply Z.eqb_neq in H. rewrite H. reflexivity. Qed.

Section Operators.

Variables (f : FractionDataType) (o : operand).
Hypothesis Hf : Reduced f.
Hypothesis Ho : operand_ok o.

Let den_pos : 0 < den f := proj1 Hf.

Lemma add_total : exn_of (__add__ f o) = None.
Proof.
  unfold __add__.
  destruct (coerce_ok o Ho) as [[_ ->] | (g & -> & Hg & _)]; [reflexivity|].
  cbn [bind]. cbv zeta. apply exn_new_nonzero. destruct Hg. nia.
Qed.

Lemma sub_total : exn_of (__sub__ f o) = None.
Proof.
  unfold __sub__.
  destruct (coerce_ok o Ho) as [[_ ->] | (g & -> & Hg & _)]; [reflexivity|].
  cbn [bind]. cbv zeta. apply exn_new_nonzero. destruct Hg. nia.
Qed.

Lemma mul_total : exn_of (__mul__ f o) = None.
Proof.
  unfold __mul__.
  destruct (coerce_ok o Ho) as [[_ ->] | (g & -> & Hg & _)]; [reflexivity|].
  cbn [bind]. cbv zeta. apply exn_new_nonzero. destruct Hg. nia.
Qed.

Lemma truediv_zero :
  zero_operand o -> exn_of (__truediv__ f o) = Some (ValueError "Cannot divide by zero").
Proof.
  intros Hz. unfold __truediv__.
  destruct (coerce_ok o Ho) as [[-> _] | (g & -> & Hg & Hgz)]; [destruct Hz|].
  cbn [bind]. apply Hgz in Hz. rewrite Hz. reflexivity.
Qed.

Lemma truediv_nonzero :
  ~ zero_operand o -> exn_of (__truediv__ f o) = None.
Proof.
  intros Hz. unfold __truediv__.
  destruct (coerce_ok o Ho) as [[_ ->] | (g & -> & Hg & Hgz)]; [reflexivity|].
  cbn [bind]. rewrite <- Hgz in Hz. apply Z.eqb_neq in Hz as Hz'. rewrite Hz'.
  apply exn_new_nonzero. nia.
Qed.

Lemma floordiv_zero :
  zero_operand o -> exn_of (__floordiv__ f o) = Some (ValueError "Cannot divide by zero").
Proof.
  intros Hz. unfold __floordiv__.
  destruct (coerce_ok o Ho) as [[-> _] | (g & -> & Hg & Hgz)]; [destruct Hz|].
  cbn [bind]. apply Hgz in Hz. rewrite Hz. reflexivity.
Qed.

Lemma floordiv_nonzero :
  ~ zero_operand o -> exn_of (__floordiv__ f o) = None.
Proof.
  intros Hz. unfold __floordiv__, Py.floordiv.
  destruct (coerce_ok o Ho) as [[_ ->] | (g & -> & Hg & Hgz)]; [reflexivity|].
  cbn [bind]. rewrite <- Hgz in Hz. apply Z.eqb_neq in Hz as Hz'. rewrite Hz'.
  assert (H : (den f * num g =? 0) = false) by (apply Z.eqb_neq; nia).
  rewrite H. reflexivity.
Qed.

Lemma mod_zero :
  zero_operand o -> exn_of (__mod__ f o) = Some (ValueError "Cannot divide by zero").
Proof.
  intros Hz. unfold __mod__, __floordiv__.
  destruct (coerce_ok o Ho) as [[-> _] | (g & -> & Hg & Hgz)]; [destruct Hz|].
  cbn [bind coerce]. apply Hgz in Hz. rewrite Hz. reflexivity.
Qed.

Lemma mod_nonzero :
  ~ zero_operand o -> exn_of (__mod__ f o) = None.
Proof.
  intros Hz. unfold __mod__, __floordiv__, Py.floordiv.
  destruct (coerce_ok o Ho) as [[_ ->] | (g & -> & Hg & Hgz)]; [reflexivity|].
  cbn [bind coerce]. rewrite <- Hgz in Hz. apply Z.eqb_neq in Hz as Hz'. rewrite Hz'.
  assert (H : (den f * num g =? 0) = false) by (apply Z.eqb_neq; nia).
  rewrite H. cbn [bind]. unfold __mul__. cbn [coerce]. rewrite new_int. cbn [bind num den].
  cbv zeta.
  destruct (new_returns (num g * (num f * den g / (den f * num g))) (den g * 1))
    as (p & -> & Hp & _); [destruct Hg; lia|].
  cbn [bind]. unfold __sub__. cbn [coerce bind]. cbv zeta.
  apply exn_new_nonzero. destruct Hp. nia.
Qed.

Lemma comparisons_total :
  exn_of (__eq__ f o) = None /\ exn_of (__ne__ f o) = None /\
  exn_of (__lt__ f o) = None /\ exn_of (__le__ f o) = None /\
  exn_of (__gt__ f o) = None /\ exn_of (__ge__ f o) = None.
Proof.
  unfold __ne__, __eq__, __lt__, __le__, __gt__, __ge__.
  destruct (coerce_ok o Ho) as [[_ ->] | (g & -> & _)]; repeat split.
Qed.

End Operators.

Section Unary.

Variable f : FractionDataType.
Hypothesis Hf : Reduced f.

Let den_nonzero : den f <> 0.
Proof. destruct Hf. lia. Qed.

Lemma unary_total :
  exn_of (__neg__ f) = None /\ exn_of (__pos__ f) = None /\
  exn_of (__abs__ f) = None /\ exn_of (simplify f) = None /\
  exn_of (__int__ f) = None /\ exn_of (as_mixed_number f) = None.
Proof.
  unfold __neg__, __pos__, __abs__, simplify, __int__, as_mixed_number,
    Py.floordiv, Py.modulo.
  rewrite !exn_new_nonzero by assumption.
  apply Z.eqb_neq in den_nonzero as H. rewrite H. repeat split.
Qed.

Lemma reciprocal_failure :
  exn_of (reciprocal f)
  = if num f =? 0 then Some (ValueError "Cannot take reciprocal of zero") else None.
Proof.
  unfold reciprocal. destruct (num f =? 0) eqn:E; [reflexivity|].
  apply exn_new_nonzero. apply Z.eqb_neq. exact E.
Qed.

Lemma pow_failure (e : Z) :
  exn_of (__pow__ f (PInt e))
  = if (num f =? 0) && (e <? 0)
    then Some (ValueError "Denominator cannot be zero") else None.
Proof.
  unfold __pow__. destruct (e <? 0) eqn:He.
  - apply Z.ltb_lt in He. rewrite exn_new, andb_true_r.
    destruct (num f =? 0) eqn:Hn.
    + apply Z.eqb_eq in Hn. rewrite Hn, Z.pow_0_l by lia. reflexivity.
    + apply Z.eqb_neq in Hn.
      assert (H : num f ^ (- e) <> 0) by (apply Z.pow_nonzero; lia).
      apply Z.eqb_neq in H. rewrite H. reflexivity.
  - apply Z.ltb_ge in He. rewrite andb_false_r.
    apply exn_new_nonzero. apply Z.pow_nonzero; lia.
Qed.

End Unary.

Lemma zero_operand_dec (o : operand) : {zero_operand o} + {~ zero_operand o}.
Proof.
  destruct o as [n|g|]; cbn; [apply Z.eq_dec | apply Z.eq_dec | right; tauto].
Defined.

Ltac never_fails H :=
  rewrite H; split; [discriminate | contradiction || tauto].

(** C6, as the code has it. On integers and canonical Fractions a call
    fails with a division-by-zero error exactly when it constructs from a
    zero denominator ([FractionDataType(n, 0)], [from_mixed(w, n, 0)]),
    divides ([/], [//], reflected [/]) or takes the remainder ([%]) by a
    zero operand, takes the reciprocal of zero, or raises zero to a negative
    power; every other call on such operands raises no such error. *)
Theorem division_by_zero_cases (c : call) :
  call_ok c ->
  fails_with_division_by_zero c = true <-> raising_case c.
Proof.
  unfold fails_with_division_by_zero.
  destruct c as [n d|w n d|f o|f o|f o|f o|f o|f o|f o|f o|f o|f o|f e
                |f|f|f|f o|f o|f o|f o|f o|f o|f|f|f|f|f|f];
    cbn [call_ok raising_case listed_case failure]; intros Hok.
  - rewrite exn_new. destruct (d =? 0) eqn:E; zbool; cbn; split;
      solve [auto | discriminate | contradiction].
  - unfold from_mixed. rewrite exn_new. destruct (d =? 0) eqn:E; zbool; cbn; split;
      solve [auto | discriminate | contradiction].
  - destruct Hok as [Hf Ho]. never_fails (add_total f o Hf Ho).
  - destruct Hok as [Hf Ho]. unfold __radd__. never_fails (add_total f o Hf Ho).
  - destruct Hok as [Hf Ho]. never_fails (sub_total f o Hf Ho).
  - destruct Hok as [Hf Ho]. unfold __rsub__.
    destruct o as [n|g|]; cbn [operand_ok] in Ho.
    + rewrite new_int. cbn [bind].
      never_fails (sub_total (Build n 1) (OFrac f) (reduced_int n) Hf).
    + never_fails (sub_total g (OFrac f) Ho Hf).
    + split; [discriminate | contradiction].
  - destruct Hok as [Hf Ho]. never_fails (mul_total f o Hf Ho).
  - destruct Hok as [Hf Ho]. unfold __rmul__. never_fails (mul_total f o Hf Ho).
  - destruct Hok as [Hf Ho]. destruct (zero_operand_dec o) as [Hz|Hz].
    + rewrite (truediv_zero f o Ho Hz). cbn. tauto.
    + never_fails (truediv_nonzero f o Hf Ho Hz).
  - destruct Hok as [Hf Ho]. unfold __rtruediv__.
    destruct o as [n|g|]; cbn [operand_ok] in Ho.
    + rewrite new_int. cbn [bind].
      destruct (Z.eq_dec (num f) 0) as [Hz|Hz].
      * rewrite (truediv_zero (Build n 1) (OFrac f) Hf Hz). cbn.
        split; [intros _; split; [assumption | discriminate] | reflexivity].
      * rewrite (truediv_nonzero (Build n 1) (OFrac f) (reduced_int n) Hf Hz).
        split; [discriminate | tauto].
    + destruct (Z.eq_dec (num f) 0) as [Hz|Hz].
      * rewrite (truediv_zero g (OFrac f) Hf Hz). cbn.
        split; [intros _; split; [assumption | discriminate] | reflexivity].
      * rewrite (truediv_nonzero g (OFrac f) Ho Hf Hz).
        split; [discriminate | tauto].
    + cbn. split; [discriminate | tauto].
  - destruct Hok as [Hf Ho]. destruct (zero_operand_dec o) as [Hz|Hz].
    + rewrite (floordiv_zero f o Ho Hz). cbn. tauto.
    + never_fails (floordiv_nonzero f o Hf Ho Hz).
  - destruct Hok as [Hf Ho]. destruct (zero_operand_dec o) as [Hz|Hz].
    + rewrite (mod_zero f o Ho Hz). cbn. tauto.
    + never_fails (mod_nonzero f o Hf Ho Hz).
  - destruct e as [e|x]; [|cbn; split; [discriminate | contradiction]].
    rewrite (pow_failure f Hok e).
    destruct (num f =? 0) eqn:Hn, (e <? 0) eqn:He; zbool; cbn; split;
      solve [auto | discriminate | lia].
  - never_fails (proj1 (unary_total f Hok)).
  - never_fails (proj1 (proj2 (unary_total f Hok))).
  - never_fails (proj1 (proj2 (proj2 (unary_total f Hok)))).
  - destruct Hok as [Hf Ho]. never_fails (proj1 (comparisons_total f o Ho)).
  - destruct Hok as [Hf Ho]. never_fails (proj1 (proj2 (comparisons_total f o Ho))).
  - destruct Hok as [Hf Ho].
    never_fails (proj1 (proj2 (proj2 (comparisons_total f o Ho)))).
  - destruct Hok as [Hf Ho].
    never_fails (proj1 (proj2 (proj2 (proj2 (comparisons_total f o Ho))))).
  - destruct Hok as [Hf Ho].
    never_fails (proj1 (proj2 (proj2 (proj2 (proj2 (comparisons_total f o Ho)))))).
  - destruct Hok as [Hf Ho].
    never_fails (proj2 (proj2 (proj2 (proj2 (proj2 (comparisons_total f o Ho)))))).
  - never_fails (proj1 (proj2 (proj2 (proj2 (proj2 (unary_total f Hok)))))).
  - never_fails (proj1 (proj2 (proj2 (proj2 (unary_total f Hok))))).
  - rewrite (reciprocal_failure f).
    destruct (num f =? 0) eqn:Hn; zbool; cbn; split;
      solve [auto | discriminate | contradiction].
  - never_fails (proj2 (proj2 (proj2 (proj2 (proj2 (unary_total f Hok)))))).
  - split; [discriminate | contradiction].
  - split; [discriminate | contradiction].
Qed.

Lemma division_by_zero_cases_witness :
  fails_with_division_by_zero (Mod (Build 1 2) (OInt 0)) = true
  <-> raising_case (Mod (Build 1 2) (OInt 0)).
Proof.
  apply (division_by_zero_cases (Mod (Build 1 2) (OInt 0))).
  cbn [call_ok operand_ok]. unfold Reduced; cbn [num den].
  repeat split; solve [reflexivity | lia].
Defined.

(** Two calls outside the three listed cases that fail with a
    division-by-zero error: zero to the power [-1], and a remainder by
    zero. *)
Lemma listed_cases_miss_pow_and_mod :
  (call_ok (Pow (Build 0 1) (PInt (-1))) /\
   fails_with_division_by_zero (Pow (Build 0 1) (PInt (-1))) = true /\
   ~ listed_case (Pow (Build 0 1) (PInt (-1)))) /\
  (call_ok (Mod (Build 1 2) (OFrac (Build 0 1))) /\
   fails_with_division_by_zero (Mod (Build 1 2) (OFrac (Build 0 1))) = true /\
   ~ listed_case (Mod (Build 1 2) (OFrac (Build 0 1)))).
Proof.
  split; (split; [|split; [reflexivity | intros []]]).
  - unfold call_ok, Reduced; cbn [num den]. repeat split; solve [reflexivity | lia].
  - unfold call_ok, operand_ok, Reduced; cbn [num den].
    repeat split; solve [reflexivity | lia].
Qed.

End FractionErrors.

(** * Binary64 facts behind the tolerance tests *)

Module FloatFacts.

Local Open Scope Z_scope.

Lemma digits2_pos_size (p : positive) : digits2_pos p = Pos.size p.
Proof. induction p; cbn; congruence. Qed.

Lemma Zdigits2_nonneg (z : Z) : 0 <= Zdigits2 z.
Proof. destruct z; cbn; lia. Qed.

Lemma Zdigits2_gt (z : Z) : 0 <= z -> z < 2 ^ Zdigits2 z.
Proof.
  destruct z as [|p|p]; intros Hz; [cbn; lia | | lia].
  cbn [Zdigits2]. rewrite digits2_pos_size.
  pose proof (Pos.size_gt p) as H.
  apply Pos2Z.pos_lt_pos in H. rewrite Pos2Z.inj_pow in H. exact H.
Qed.

Lemma Zdigits2_le (z : Z) : 0 < z -> 2 ^ (Zdigits2 z - 1) <= z.
Proof.
  destruct z as [|p|p]; intros Hz; try lia.
  cbn [Zdigits2]. rewrite digits2_pos_size.
  pose proof (Pos.size_le p) as H.
  apply Pos2Z.pos_le_pos in H. rewrite Pos2Z.inj_pow in H.
  replace (Z.pos (Pos.size p)) with (1 + (Z.pos (Pos.size p) - 1)) in H by lia.
  rewrite Z.pow_add_r in H by lia. change (2 ^ 1) with 2 in H.
  change (Z.pos p~0) with (2 * Z.pos p) in H. lia.
Qed.

(** A number below [2 ^ k] has at most [k] binary digits. *)
Lemma Zdigits2_upper (z k : Z) : 0 <= z < 2 ^ k -> 0 <= k -> Zdigits2 z <= k.
Proof.
  intros [Hz Hlt] Hk.
  destruct (Z.eq_dec z 0) as [->|Hnz]; [cbn; lia|].
  pose proof (Zdigits2_le z ltac:(lia)) as Hle.
  pose proof (Zdigits2_nonneg z) as Hn.
  assert (H : 2 ^ (Zdigits2 z - 1) < 2 ^ k) by lia.
  apply Z.pow_lt_mono_r_iff in H; lia.
Qed.

Lemma shr_1_m (mrs : shr_record) :
  0 <= shr_m mrs -> shr_m (shr_1 mrs) = shr_m mrs / 2.
Proof.
  destruct mrs as [m r s]. cbn [shr_m]. intros Hm.
  destruct m as [|[p|p|]|p]; cbn [shr_1 shr_m].
  - reflexivity.
  - change (Z.pos p~1) with (2 * Z.pos p + 1).
    apply Z.div_unique with (r := 1); lia.
  - change (Z.pos p~0) with (2 * Z.pos p).
    apply Z.div_unique with (r := 0); lia.
  - reflexivity.
  - lia.
Qed.

Lemma iter_shr_m (p : positive) (mrs : shr_record) :
  0 <= shr_m mrs ->
  shr_m (iter_pos shr_1 p mrs) = shr_m mrs / 2 ^ Z.pos p.
Proof.
  revert mrs. induction p as [p IH|p IH|]; intros mrs Hm; cbn [iter_pos].
  - assert (H1 : 0 <= shr_m (shr_1 mrs)) by (rewrite shr_1_m by assumption; apply Z.div_pos; lia).
    assert (H2 : 0 <= shr_m (iter_pos shr_1 p (shr_1 mrs))).
    { rewrite IH by assumption. apply Z.div_pos; [assumption|]. apply Z.pow_pos_nonneg; lia. }
    rewrite IH, IH, shr_1_m by assumption.
    rewrite !Z.div_div by (try apply Z.pow_pos_nonneg; lia).
    f_equal. change (Z.pos p~1) with (2 * Z.pos p + 1).
    replace (2 * Z.pos p + 1) with (1 + Z.pos p + Z.pos p) by lia.
    rewrite !Z.pow_add_r by lia. change (2 ^ 1) with 2. ring.
  - assert (H2 : 0 <= shr_m (iter_pos shr_1 p mrs)).
    { rewrite IH by assumption. apply Z.div_pos; [assumption|]. apply Z.pow_pos_nonneg; lia. }
    rewrite IH, IH by assumption.
    rewrite !Z.div_div by (try apply Z.pow_pos_nonneg; lia).
    f_equal. change (Z.pos p~0) with (2 * Z.pos p).
    replace (2 * Z.pos p) with (Z.pos p + Z.pos p) by lia.
    rewrite !Z.pow_add_r by lia. ring.
  - rewrite shr_1_m by assumption. reflexivity.
Qed.

Lemma round_nearest_even_bounds (m : Z) (l : location) :
  m <= round_nearest_even m l <= m + 1.
Proof.
  destruct l as [|[| |]]; cbn [round_nearest_even]; try lia.
  destruct (Z.even m); lia.
Qed.

Lemma fexp_binary64 (e : Z) : fexp prec emax e = Z.max (e - 53) (-1074).
Proof. reflexivity. Qed.

(** Rounding a positive integer mantissa [mx * 2 ^ ex] to binary64 leaves
    the exponent at most one above the first alignment. *)
Lemma binary_round_aux_exponent (sx : bool) (mx ex : Z) :
  0 < mx ->
  match binary_round_aux prec emax sx mx ex loc_Exact with
  | S754_finite _ _ e2 => e2 <= Z.max ex (fexp prec emax (Zdigits2 mx + ex)) + 1
  | S754_infinity _ => 971 < Z.max ex (fexp prec emax (Zdigits2 mx + ex)) + 1
  | _ => True
  end.
Proof.
  intros Hmx.
  unfold binary_round_aux, shr_fexp, shr. cbn [shr_record_of_loc].
  rewrite !fexp_binary64.
  pose proof (Zdigits2_gt mx ltac:(lia)) as Hdg.
  pose proof (Zdigits2_nonneg mx) as Hdg0.
  set (dg := Zdigits2 mx) in *.
  destruct (Z.max (dg + ex - 53) (-1074) - ex) as [|p|p] eqn:Hn.
  - (* no first shift: the mantissa is kept *)
    cbn [shr_m loc_of_shr_record round_nearest_even]. fold dg.
    rewrite fexp_binary64, Hn. cbn [shr_m]. change (emax - prec) with 971.
    destruct mx as [|m|m]; try lia.
    destruct (ex <=? 971) eqn:He; [lia | apply Z.leb_gt in He; lia].
  - (* a first shift by [p] bits *)
    set (mrs := iter_pos shr_1 p {| shr_m := mx; shr_r := false; shr_s := false |}).
    assert (Hm : shr_m mrs = mx / 2 ^ Z.pos p)
      by (subst mrs; rewrite iter_shr_m; cbn [shr_m]; [reflexivity | lia]).
    pose proof (round_nearest_even_bounds (shr_m mrs) (loc_of_shr_record mrs)) as Hr.
    set (mr := round_nearest_even (shr_m mrs) (loc_of_shr_record mrs)) in *.
    assert (Hq : 0 <= mx / 2 ^ Z.pos p < 2 ^ 53).
    { split; [apply Z.div_pos; [lia | apply Z.pow_pos_nonneg; lia]|].
      apply Z.div_lt_upper_bound; [apply Z.pow_pos_nonneg; lia|].
      rewrite <- Z.pow_add_r by lia.
      apply Z.lt_le_trans with (1 := Hdg).
      apply Z.pow_le_mono_r; lia. }
    assert (Hmr : Zdigits2 mr <= 54).
    { apply Zdigits2_upper; [|lia]. change (2 ^ 54) with (2 * 2 ^ 53). lia. }
    pose proof (Zdigits2_nonneg mr) as Hmr0.
    rewrite fexp_binary64.
    destruct (Z.max (Zdigits2 mr + (ex + Z.pos p) - 53) (-1074) - (ex + Z.pos p))
      as [|p2|p2] eqn:Hn2; cbn [shr_m]; change (emax - prec) with 971.
    + destruct mr as [|m|m]; try exact I.
      destruct (ex + Z.pos p <=? 971) eqn:He; [lia | apply Z.leb_gt in He; lia].
    + destruct (shr_m (iter_pos shr_1 p2 {| shr_m := mr; shr_r := false; shr_s := false |}))
        as [|m|m]; try exact I.
      destruct (ex + Z.pos p + Z.pos p2 <=? 971) eqn:He; [lia | apply Z.leb_gt in He; lia].
    + destruct mr as [|m|m]; try exact I.
      destruct (ex + Z.pos p <=? 971) eqn:He; [lia | apply Z.leb_gt in He; lia].
  - (* the alignment is already coarser than needed *)
    cbn [shr_m loc_of_shr_record round_nearest_even]. fold dg.
    rewrite fexp_binary64, Hn. cbn [shr_m]. change (emax - prec) with 971.
    destruct mx as [|m|m]; try lia.
    destruct (ex <=? 971) eqn:He; [lia | apply Z.leb_gt in He; lia].
Qed.

Lemma valid_finite (s : bool) (m : positive) (e : Z) :
  valid_binary (S754_finite s m e) = true ->
  Z.pos m < 2 ^ 53 /\ -1074 <= e <= 971.
Proof.
  cbn [valid_binary]. unfold bounded, canonical_mantissa.
  rewrite andb_true_iff, Z.eqb_eq, Z.leb_le, fexp_binary64.
  change (emax - prec) with 971. intros [Hc He].
  pose proof (Zdigits2_gt (Z.pos m) ltac:(lia)) as Hdg. cbn [Zdigits2] in Hdg.
  split; [|lia].
  apply Z.lt_le_trans with (1 := Hdg). apply Z.pow_le_mono_r; lia.
Qed.

(** The relative term of [isclose] against zero never helps: for a finite
    [d] above [1e-12] in magnitude, [|1e-9 * d|] lies strictly below
    [|d|]. *)
Lemma rel_term_below (s : bool) (m : positive) (e : Z) :
  valid_binary (S754_finite s m e) = true ->
  SFleb (S754_finite false m e) (S754_finite false 4951760157141521 (-92)) = false ->
  SFleb (S754_finite false m e)
        (SFabs (SF64mul (S754_finite false 4835703278458517 (-82)) (S754_finite s m e)))
  = false.
Proof.
  intros Hv Hgt. destruct (valid_finite s m e Hv) as [Hm He].
  assert (He12 : -92 <= e).
  { unfold SFleb, SFcompare in Hgt.
    destruct (e ?= -92) eqn:Hc; try discriminate;
      [apply Z.compare_eq in Hc | apply Z.compare_gt_iff in Hc]; lia. }
  unfold SF64mul, SFmul. cbn [xorb].
  assert (Hprod : 0 <= Z.pos (4835703278458517 * m) < 2 ^ 106).
  { rewrite Pos2Z.inj_mul. change (2 ^ 106) with (2 ^ 53 * 2 ^ 53).
    assert (Z.pos 4835703278458517 < 2 ^ 53) by reflexivity. nia. }
  pose proof (Zdigits2_upper _ 106 Hprod ltac:(lia)) as Hdg.
  pose proof (Zdigits2_nonneg (Z.pos (4835703278458517 * m))) as Hdg0.
  pose proof (binary_round_aux_exponent s (Z.pos (4835703278458517 * m)) (-82 + e)
                ltac:(lia)) as Hr.
  rewrite fexp_binary64 in Hr.
  destruct (binary_round_aux prec emax s (Z.pos (4835703278458517 * m)) (-82 + e) loc_Exact)
    as [s2|s2| |s2 m2 e2]; cbn [SFabs]; unfold SFleb, SFcompare.
  - reflexivity.
  - lia.
  - reflexivity.
  - assert (Hc : (e ?= e2) = Gt) by (apply Z.compare_gt_iff; lia).
    rewrite Hc. reflexivity.
Qed.

Local Open Scope float_scope.

(** Against zero, [isclose] with the default relative tolerance and the
    absolute tolerance [1e-12] is the test [|d| <= 1e-12]. *)
Lemma isclose_zero (d : float) :
  Math.isclose d 0 Math.default_rel_tol Math.tol_1e_12
  = Return (abs d <=? Math.tol_1e_12).
Proof.
  unfold Math.isclose.
  change ((Math.default_rel_tol <? 0) || (Math.tol_1e_12 <? 0)) with false.
  change (is_infinity 0) with false. cbv iota.
  unfold is_infinity.
  rewrite !eqb_spec, !leb_spec, !abs_spec, sub_spec, !mul_spec.
  change (Prim2SF 0) with (S754_zero false).
  change (Prim2SF infinity) with (S754_infinity false).
  change (Prim2SF Math.default_rel_tol)
    with (S754_finite false 4835703278458517 (-82)).
  change (Prim2SF Math.tol_1e_12)
    with (S754_finite false 4951760157141521 (-92)).
  change (SFabs (SF64mul (S754_finite false 4835703278458517 (-82)) (S754_zero false)))
    with (S754_zero false).
  pose proof (Prim2SF_valid d) as Hv.
  destruct (Prim2SF d) as [s|s| |s m e].
  - reflexivity.
  - destruct s; reflexivity.
  - reflexivity.
  - assert (E1 : SFeqb (S754_finite s m e) (S754_zero false) = false)
      by (destruct s; reflexivity).
    rewrite E1. unfold SF64sub. cbn [SFsub]. cbn [SFabs].
    change (SFeqb (S754_finite false m e) (S754_infinity false)) with false.
    change (SFleb (S754_finite false m e) (S754_zero false)) with false.
    cbn [orb]. f_equal.
    destruct (SFleb (S754_finite false m e) (S754_finite false 4951760157141521 (-92)))
      eqn:Hle; [apply orb_true_r|].
    rewrite (rel_term_below s m e Hv Hle). reflexivity.
Qed.

(** A float outside the tolerance is not zero. *)
Lemma outside_tolerance_nonzero (d : float) :
  (abs d <=? Math.tol_1e_12) = false -> (d =? 0) = false.
Proof.
  rewrite leb_spec, eqb_spec, abs_spec.
  change (Prim2SF 0) with (S754_zero false).
  change (Prim2SF Math.tol_1e_12)
    with (S754_finite false 4951760157141521 (-92)).
  destruct (Prim2SF d) as [s|s| |s m e]; intros H.
  - discriminate H.
  - destruct s; reflexivity.
  - reflexivity.
  - destruct s; reflexivity.
Qed.

End FloatFacts.

(** * Properties of Point and Line *)

Module GeoFacts.

Import Geo FloatFacts.
Local Open Scope float_scope.

Lemma float_truediv_nonzero (a b : float) :
  (b =? 0) = false -> Math.truediv a b = Return (a / b).
Proof. intros H. unfold Math.truediv. rewrite H. reflexivity. Qed.

(** The closed form of [intersection_with] on two lines. *)
Lemma intersection_with_eq (l1 l2 : Line) :
  Line.intersection_with l1 (LineObj l2) =
  let D := A l1 * B l2 - A l2 * B l1 in
  if abs D <=? Math.tol_1e_12 then Return None
  else Return (Some (BuildPoint ((B l1 * C l2 - B l2 * C l1) / D)
                                ((A l2 * C l1 - A l1 * C l2) / D))).
Proof.
  unfold Line.intersection_with. cbv zeta.
  rewrite isclose_zero. cbn [bind].
  destruct (abs (A l1 * B l2 - A l2 * B l1) <=? Math.tol_1e_12) eqn:Htol;
    [reflexivity|].
  apply outside_tolerance_nonzero in Htol.
  rewrite !float_truediv_nonzero by assumption. reflexivity.
Qed.

(** C2. [intersection_with] is Cramer's rule on the determinant
    [D = A1*B2 - A2*B1]: no point when [|D| <= 1e-12], the point
    [((B1*C2 - B2*C1)/D, (A2*C1 - A1*C2)/D)] otherwise; and
    [Line(1,-1,0)] meets [Line(1,1,-4)] in [(2.0, 2.0)]. *)
Theorem intersection_with_cramer (l1 l2 : Line) :
  (let D := A l1 * B l2 - A l2 * B l1 in
   Line.intersection_with l1 (LineObj l2) =
   if abs D <=? Math.tol_1e_12 then Return None
   else Return (Some (BuildPoint ((B l1 * C l2 - B l2 * C l1) / D)
                                 ((A l2 * C l1 - A l1 * C l2) / D)))) /\
  (a <- Line.__init__ (PInt 1) (PInt (-1)) (PInt 0) ;;
   b <- Line.__init__ (PInt 1) (PInt 1) (PInt (-4)) ;;
   Line.intersection_with a (LineObj b)) = Return (Some (BuildPoint 2 2)).
Proof.
  split; [apply intersection_with_eq | vm_compute; reflexivity].
Qed.

(** C3. Two lines whose determinant is within [1e-12] of zero have no
    intersection point, and the call returns [None] instead of raising. *)
Theorem parallel_lines_yield_none (l1 l2 : Line) :
  (abs (A l1 * B l2 - A l2 * B l1) <=? Math.tol_1e_12) = true ->
  Line.intersection_with l1 (LineObj l2) = Return None.
Proof.
  intros H. rewrite intersection_with_eq. cbv zeta. rewrite H. reflexivity.
Qed.

(** [Line(1,1,-4).intersection_with(Line(1,1,5))] is [None]. *)
Lemma parallel_lines_yield_none_witness :
  Line.intersection_with (BuildLine 1 1 (-4)) (LineObj (BuildLine 1 1 5)) = Return None.
Proof.
  apply (parallel_lines_yield_none (BuildLine 1 1 (-4)) (BuildLine 1 1 5)).
  reflexivity.
Defined.

Example parallel_lines_scenario :
  (a <- Line.__init__ (PInt 1) (PInt 1) (PInt (-4)) ;;
   b <- Line.__init__ (PInt 1) (PInt 1) (PInt 5) ;;
   Line.intersection_with a (LineObj b)) = Return None.
Proof. vm_compute. reflexivity. Qed.

(** On two lines [intersection_with] never raises, whatever the
    coefficients (infinities and NaN included). *)
Lemma intersection_with_never_raises (l1 l2 : Line) :
  raises (Line.intersection_with l1 (LineObj l2)) = false.
Proof.
  rewrite intersection_with_eq. cbv zeta.
  destruct (abs (A l1 * B l2 - A l2 * B l1) <=? Math.tol_1e_12); reflexivity.
Qed.

(** *** Degenerate input *)

Lemma zero_cases (a : float) : (a =? 0) = true -> a = 0 \/ a = (-0).
Proof.
  rewrite eqb_spec. change (Prim2SF 0) with (S754_zero false).
  intros H. rewrite <- (SF2Prim_Prim2SF a).
  destruct (Prim2SF a) as [s|s| |s m e].
  - destruct s; [right | left]; reflexivity.
  - destruct s; discriminate H.
  - discriminate H.
  - destruct s; discriminate H.
Qed.

Section Degenerate.

Variable hypot : float -> float -> float.
Variable float_pow : float -> float -> outcome float.

(** What the platform guarantees at zero: [hypot(+-0, +-0)] is zero, and
  so is the square of a zero. *)
Hypothesis hypot_zero :
forall a b, (a =? 0) = true -> (b =? 0) = true -> (hypot a b =? 0) = true.
Hypothesis pow_zero :
forall a, (a =? 0) = true -> exists r, float_pow a 2 = Return r /\ (r =? 0) = true.

Lemma isclose_default_zero (s : float) :
(s =? 0) = true ->
Math.isclose s 0 Math.default_rel_tol Math.default_abs_tol = Return true.
Proof.
intros H. unfold Math.isclose.
change ((Math.default_rel_tol <? 0) || (Math.default_abs_tol <? 0)) with false.
cbv iota. rewrite H. reflexivity.
Qed.

(** [normalize] fails, with its [ValueError], exactly when the magnitude
  compares equal to zero; otherwise it returns the scaled point. *)
Lemma normalize_eq (v : Point) :
Point.normalize hypot v =
if Point.magnitude hypot v =? 0
then Raise (ValueError "Cannot normalize zero-length vector")
else Return (BuildPoint (x v / Point.magnitude hypot v) (y v / Point.magnitude hypot v)).
Proof.
unfold Point.normalize. cbv zeta.
destruct (Point.magnitude hypot v =? 0) eqn:Hm; [reflexivity|].
rewrite !float_truediv_nonzero by assumption. reflexivity.
Qed.

Lemma normalize_domain_error (v : Point) :
fails_with_domain_error (Point.normalize hypot v) = true
<-> (Point.magnitude hypot v =? 0) = true.
Proof.
rewrite normalize_eq.
destruct (Point.magnitude hypot v =? 0); cbn; split; auto; discriminate.
Qed.

Variable l : Line.
Hypothesis A_zero : (A l =? 0) = true.
Hypothesis B_zero : (B l =? 0) = true.

Lemma unit_normal_degenerate :
Line.unit_normal hypot l = Raise (ValueError "Invalid line coefficients").
Proof.
unfold Line.unit_normal. cbv zeta.
rewrite isclose_default_zero by (apply hypot_zero; assumption). reflexivity.
Qed.

Lemma offset_degenerate (distance : float) :
Line.offset hypot l distance = Raise (ValueError "Invalid line coefficients").
Proof.
unfold Line.offset. cbv zeta.
rewrite isclose_default_zero by (apply hypot_zero; assumption). reflexivity.
Qed.

Lemma project_point_degenerate (p : Point) :
Line.project_point float_pow l (PointObj p)
= Raise (ValueError "Invalid line coefficients").
Proof.
unfold Line.project_point.
destruct (pow_zero (A l) A_zero) as (a2 & -> & Ha).
destruct (pow_zero (B l) B_zero) as (b2 & -> & Hb).
cbn [bind]. cbv zeta.
rewrite isclose_default_zero; [reflexivity|].
destruct (zero_cases a2 Ha) as [-> | ->], (zero_cases b2 Hb) as [-> | ->];
  reflexivity.
Qed.

Lemma shortest_distance_degenerate (p : Point) :
Line.shortest_distance_to_point hypot l (PointObj p)
= Raise (ZeroDivisionError "float division by zero").
Proof.
unfold Line.shortest_distance_to_point, Math.truediv. cbv zeta.
rewrite (hypot_zero (A l) (B l) A_zero B_zero). reflexivity.
Qed.

End Degenerate.

(** C4, as the code has it. [normalize] fails with a DomainError exactly
    when the magnitude is zero, and on a line with [A = B = 0] so do
    [project_point], [unit_normal] and [offset]; but
    [shortest_distance_to_point] has no such guard and fails in the division
    itself, with [ZeroDivisionError]. *)
Theorem degenerate_geometry_failures
    (hypot : float -> float -> float)
    (float_pow : float -> float -> outcome float)
    (l : Line) (p v : Point) (distance : float) :
  (forall a b, (a =? 0) = true -> (b =? 0) = true -> (hypot a b =? 0) = true) ->
  (forall a, (a =? 0) = true ->
             exists r, float_pow a 2 = Return r /\ (r =? 0) = true) ->
  (A l =? 0) = true -> (B l =? 0) = true ->
  (fails_with_domain_error (Point.normalize hypot v) = true
   <-> (Point.magnitude hypot v =? 0) = true) /\
  fails_with_domain_error (Line.project_point float_pow l (PointObj p)) = true /\
  fails_with_domain_error (Line.unit_normal hypot l) = true /\
  fails_with_domain_error (Line.offset hypot l distance) = true /\
  Line.shortest_distance_to_point hypot l (PointObj p)
  = Raise (ZeroDivisionError "float division by zero") /\
  fails_with_domain_error (Line.shortest_distance_to_point hypot l (PointObj p))
  = false.
Proof.
  intros Hh Hp HA HB.
  split; [apply normalize_domain_error|].
  rewrite (project_point_degenerate float_pow Hp l HA HB p).
  rewrite (unit_normal_degenerate hypot Hh l HA HB).
  rewrite (offset_degenerate hypot Hh l HA HB distance).
  rewrite (shortest_distance_degenerate hypot Hh l HA HB p).
  repeat split.
Qed.

(** [Line(0, 0, 1)] and [Point(1, 1)], with the textbook norm
    [sqrt(a*a + b*b)] and square [a*a]. *)
Lemma degenerate_geometry_failures_witness :
  Line.shortest_distance_to_point (fun a b => sqrt (a * a + b * b))
    (BuildLine 0 0 1) (PointObj (BuildPoint 1 1))
  = Raise (ZeroDivisionError "float division by zero") /\
  fails_with_domain_error
    (Line.unit_normal (fun a b => sqrt (a * a + b * b)) (BuildLine 0 0 1)) = true.
Proof.
  pose proof
    (degenerate_geometry_failures
       (fun a b => sqrt (a * a + b * b)) (fun a _ => Return (a * a))
       (BuildLine 0 0 1) (BuildPoint 1 1) (BuildPoint 0 0) 1) as H.
  destruct H as (_ & _ & Hu & _ & Hs & _).
  - intros a b Ha Hb.
    destruct (zero_cases a Ha) as [-> | ->], (zero_cases b Hb) as [-> | ->];
      reflexivity.
  - intros a Ha. eexists; split; [reflexivity|].
    destruct (zero_cases a Ha) as [-> | ->]; reflexivity.
  - reflexivity.
  - reflexivity.
  - split; assumption.
Defined.

End GeoFacts.

(** * Fraction arithmetic as exact rational arithmetic *)

Module FractionAlgebra.

Import Fraction FractionSpec FractionFacts.

Lemma Qdiv_cross (a b c d : Z) :
  b <> 0 -> d <> 0 -> a * d = c * b ->
  (inject_Z a / inject_Z b == inject_Z c / inject_Z d)%Q.
Proof.
  intros Hb Hd E.
  apply Qmult_inj_r with (z := (inject_Z b * inject_Z d)%Q).
  { intros H. apply Qmult_integral in H.
    destruct H as [H|H]; revert H; apply inject_Z_nonzero; assumption. }
  transitivity (inject_Z (a * d)).
  - rewrite inject_Z_mult. field. apply inject_Z_nonzero; assumption.
  - rewrite E, inject_Z_mult. field. apply inject_Z_nonzero; assumption.
Qed.

Lemma Qdiv_cross_inv (a b c d : Z) :
  b <> 0 -> d <> 0 ->
  (inject_Z a / inject_Z b == inject_Z c / inject_Z d)%Q -> a * d = c * b.
Proof.
  intros Hb Hd E.
  assert (E2 : (inject_Z (a * d) == inject_Z (c * b))%Q).
  { rewrite !inject_Z_mult.
    transitivity (inject_Z a / inject_Z b * (inject_Z b * inject_Z d))%Q;
      [field; apply inject_Z_nonzero; assumption|].
    rewrite E. field. apply inject_Z_nonzero; assumption. }
  unfold Qeq in E2. cbn in E2. lia.
Qed.

(** The constructor returns the canonical Fraction of [n/d]. *)
Lemma new_value (n d : Z) :
  d <> 0 -> returns_value (new n d) (inject_Z n / inject_Z d).
Proof.
  intros Hd. destruct (new_returns n d Hd) as (r & Hr & Hred & Hv).
  exists r. split; [exact Hr|]. split; [exact Hred|].
  assert (Hp : 0 < den r) by apply Hred.
  rewrite (value_as_quotient r Hp). apply Qdiv_cross; lia.
Qed.

Lemma returns_value_ext (o : outcome FractionDataType) (p q : Q) :
  (p == q)%Q -> returns_value o p -> returns_value o q.
Proof.
  intros E (r & Hr & Hred & Hv). exists r. rewrite <- E. auto.
Qed.

(** Two calls that return the same rational return the same pair. *)
Lemma returns_value_unique (o o' : outcome FractionDataType) (q : Q) :
  returns_value o q -> returns_value o' q -> o = o'.
Proof.
  intros (r & -> & Hr & Hv) (r' & -> & Hr' & Hv').
  f_equal. apply value_eq; try assumption. rewrite Hv, Hv'. reflexivity.
Qed.

Lemma returns_value_bind (o : outcome FractionDataType)
    (k : FractionDataType -> outcome FractionDataType) (q q' : Q) :
  returns_value o q ->
  (forall r, Reduced r -> (value r == q)%Q -> returns_value (k r) q') ->
  returns_value (bind o k) q'.
Proof.
  intros (r & -> & Hr & Hv) Hk. cbn [bind]. apply Hk; assumption.
Qed.

Lemma value_int (n : Z) : (value (Build n 1) == inject_Z n)%Q.
Proof. reflexivity. Qed.

Section Binary.

Variables f g : FractionDataType.
Hypothesis Hf : Reduced f.
Hypothesis Hg : Reduced g.

Let Hb : 0 < den f := proj1 Hf.
Let Hd : 0 < den g := proj1 Hg.

Lemma add_value : returns_value (__add__ f (OFrac g)) (value f + value g).
Proof.
  unfold __add__. cbn [coerce bind]. cbv zeta.
  eapply returns_value_ext; [|apply new_value; nia].
  rewrite (value_as_quotient f Hb), (value_as_quotient g Hd).
  rewrite !inject_Z_plus, !inject_Z_mult.
  field. split; apply inject_Z_nonzero; lia.
Qed.

Lemma sub_value : returns_value (__sub__ f (OFrac g)) (value f - value g).
Proof.
  unfold __sub__. cbn [coerce bind]. cbv zeta.
  eapply returns_value_ext; [|apply new_value; nia].
  rewrite (value_as_quotient f Hb), (value_as_quotient g Hd).
  unfold Z.sub. rewrite !inject_Z_plus, inject_Z_opp, !inject_Z_mult.
  field. split; apply inject_Z_nonzero; lia.
Qed.

Lemma mul_value : returns_value (__mul__ f (OFrac g)) (value f * value g).
Proof.
  unfold __mul__. cbn [coerce bind]. cbv zeta.
  eapply returns_value_ext; [|apply new_value; nia].
  rewrite (value_as_quotient f Hb), (value_as_quotient g Hd).
  rewrite !inject_Z_mult.
  field. split; apply inject_Z_nonzero; lia.
Qed.

Lemma truediv_value :
  num g <> 0 -> returns_value (__truediv__ f (OFrac g)) (value f / value g).
Proof.
  intros Hc. unfold __truediv__. cbn [coerce bind].
  apply Z.eqb_neq in Hc as Hc'. rewrite Hc'.
  eapply returns_value_ext; [|apply new_value; nia].
  symmetry. apply value_quotient; assumption.
Qed.

End Binary.

Lemma int_operand (f : FractionDataType) (n : Z) :
  __add__ f (OInt n) = __add__ f (OFrac (Build n 1)) /\
  __sub__ f (OInt n) = __sub__ f (OFrac (Build n 1)) /\
  __mul__ f (OInt n) = __mul__ f (OFrac (Build n 1)) /\
  __truediv__ f (OInt n) = __truediv__ f (OFrac (Build n 1)).
Proof.
  unfold __add__, __sub__, __mul__, __truediv__. cbn [coerce].
  rewrite new_int. repeat split.
Qed.

(** X1. Addition and subtraction of canonical Fractions, with a Fraction or
    an integer on either side, return the canonical Fraction of the exact
    rational sum or difference. *)
Theorem add_sub_exact (f g : FractionDataType) (n : Z) :
  Reduced f -> Reduced g ->
  returns_value (__add__ f (OFrac g)) (value f + value g) /\
  returns_value (__sub__ f (OFrac g)) (value f - value g) /\
  returns_value (__add__ f (OInt n)) (value f + inject_Z n) /\
  returns_value (__radd__ f (OInt n)) (inject_Z n + value f) /\
  returns_value (__sub__ f (OInt n)) (value f - inject_Z n) /\
  returns_value (__rsub__ f (OInt n)) (inject_Z n - value f).
Proof.
  intros Hf Hg.
  destruct (int_operand f n) as (Ea & Es & _).
  pose proof (reduced_int n) as Hn.
  split; [apply add_value; assumption|].
  split; [apply sub_value; assumption|].
  split; [rewrite Ea; apply (add_value f (Build n 1) Hf Hn)|].
  split.
  { unfold __radd__. rewrite Ea.
    eapply returns_value_ext; [|apply (add_value f (Build n 1) Hf Hn)].
    rewrite value_int. ring. }
  split; [rewrite Es; apply (sub_value f (Build n 1) Hf Hn)|].
  unfold __rsub__. rewrite new_int. cbn [bind].
  apply (sub_value (Build n 1) f Hn Hf).
Qed.

Lemma add_sub_exact_witness :
  returns_value (__add__ (Build 1 2) (OFrac (Build 1 6))) (value (Build 1 2) + value (Build 1 6)) /\
  __add__ (Build 1 2) (OFrac (Build 1 6)) = Return (Build 2 3).
Proof.
  split; [|reflexivity].
  apply (add_sub_exact (Build 1 2) (Build 1 6) 0);
    unfold Reduced; cbn [num den]; repeat split; solve [reflexivity | lia].
Defined.

(** X2. Multiplication and division of canonical Fractions, with a Fraction
    or an integer on either side, return the canonical Fraction of the exact
    rational product or quotient; the divisor must not be zero. *)
Theorem mul_div_exact (f g : FractionDataType) (n : Z) :
  Reduced f -> Reduced g ->
  returns_value (__mul__ f (OFrac g)) (value f * value g) /\
  returns_value (__mul__ f (OInt n)) (value f * inject_Z n) /\
  returns_value (__rmul__ f (OInt n)) (inject_Z n * value f) /\
  (num g <> 0 -> returns_value (__truediv__ f (OFrac g)) (value f / value g)) /\
  (n <> 0 -> returns_value (__truediv__ f (OInt n)) (value f / inject_Z n)) /\
  (num f <> 0 -> returns_value (__rtruediv__ f (OInt n)) (inject_Z n / value f)).
Proof.
  intros Hf Hg.
  destruct (int_operand f n) as (_ & _ & Em & Ed).
  pose proof (reduced_int n) as Hn.
  split; [apply mul_value; assumption|].
  split; [rewrite Em; apply (mul_value f (Build n 1) Hf Hn)|].
  split.
  { unfold __rmul__. rewrite Em.
    eapply returns_value_ext; [|apply (mul_value f (Build n 1) Hf Hn)].
    rewrite value_int. ring. }
  split; [intros Hc; apply truediv_value; assumption|].
  split.
  { intros Hc. rewrite Ed. apply (truediv_value f (Build n 1) Hf Hn). exact Hc. }
  intros Hc. unfold __rtruediv__. rewrite new_int. cbn [bind].
  apply (truediv_value (Build n 1) f Hn Hf Hc).
Qed.

Lemma mul_div_exact_witness :
  returns_value (__mul__ (Build 2 3) (OFrac (Build 3 4))) (value (Build 2 3) * value (Build 3 4)) /\
  __mul__ (Build 2 3) (OFrac (Build 3 4)) = Return (Build 1 2).
Proof.
  split; [|reflexivity].
  apply (mul_div_exact (Build 2 3) (Build 3 4) 0);
    unfold Reduced; cbn [num den]; repeat split; solve [reflexivity | lia].
Defined.

Lemma add_chain (o : outcome FractionDataType) (h : FractionDataType) (q : Q) :
  Reduced h -> returns_value o q ->
  returns_value (x <- o ;; __add__ x (OFrac h)) (q + value h) /\
  returns_value (x <- o ;; __add__ h (OFrac x)) (value h + q) /\
  returns_value (x <- o ;; __mul__ x (OFrac h)) (q * value h) /\
  returns_value (x <- o ;; __mul__ h (OFrac x)) (value h * q).
Proof.
  intros Hh Ho.
  repeat split; (eapply returns_value_bind; [exact Ho|]); intros r Hr Hv.
  - eapply returns_value_ext; [|apply add_value; assumption].
    rewrite Hv. reflexivity.
  - eapply returns_value_ext; [|apply add_value; assumption].
    rewrite Hv. reflexivity.
  - eapply returns_value_ext; [|apply mul_value; assumption].
    rewrite Hv. reflexivity.
  - eapply returns_value_ext; [|apply mul_value; assumption].
    rewrite Hv. reflexivity.
Qed.

(** X3. On canonical Fractions [+] and [*] are commutative and associative
    and [*] distributes over [+], as equalities of the returned pairs: no
    rounding and no dependence on the order of evaluation. *)
Theorem field_laws (f g h : FractionDataType) :
  Reduced f -> Reduced g -> Reduced h ->
  __add__ f (OFrac g) = __add__ g (OFrac f) /\
  __mul__ f (OFrac g) = __mul__ g (OFrac f) /\
  (x <- __add__ f (OFrac g) ;; __add__ x (OFrac h))
  = (y <- __add__ g (OFrac h) ;; __add__ f (OFrac y)) /\
  (x <- __mul__ f (OFrac g) ;; __mul__ x (OFrac h))
  = (y <- __mul__ g (OFrac h) ;; __mul__ f (OFrac y)) /\
  (s <- __add__ g (OFrac h) ;; __mul__ f (OFrac s))
  = (p <- __mul__ f (OFrac g) ;; q <- __mul__ f (OFrac h) ;; __add__ p (OFrac q)).
Proof.
  intros Hf Hg Hh.
  split.
  { apply returns_value_unique with (q := (value f + value g)%Q).
    - apply add_value; assumption.
    - eapply returns_value_ext; [|apply add_value; assumption]. ring. }
  split.
  { apply returns_value_unique with (q := (value f * value g)%Q).
    - apply mul_value; assumption.
    - eapply returns_value_ext; [|apply mul_value; assumption]. ring. }
  split.
  { apply returns_value_unique with (q := (value f + value g + value h)%Q).
    - apply add_chain; [assumption | apply add_value; assumption].
    - eapply returns_value_ext;
        [|apply (add_chain _ f _ Hf (add_value g h Hg Hh))]. ring. }
  split.
  { apply returns_value_unique with (q := (value f * value g * value h)%Q).
    - apply add_chain; [assumption | apply mul_value; assumption].
    - eapply returns_value_ext;
        [|apply (add_chain _ f _ Hf (mul_value g h Hg Hh))]. ring. }
  apply returns_value_unique with (q := (value f * (value g + value h))%Q).
  - apply (add_chain _ f _ Hf (add_value g h Hg Hh)).
  - eapply returns_value_bind; [apply mul_value; assumption|].
    intros p Hp Hpv.
    eapply returns_value_bind; [apply mul_value; assumption|].
    intros q Hq Hqv.
    eapply returns_value_ext; [|apply add_value; assumption].
    rewrite Hpv, Hqv. ring.
Qed.

Lemma field_laws_witness :
  (x <- __add__ (Build 1 2) (OFrac (Build 1 3)) ;; __add__ x (OFrac (Build 1 6)))
  = (y <- __add__ (Build 1 3) (OFrac (Build 1 6)) ;; __add__ (Build 1 2) (OFrac y)).
Proof.
  apply (field_laws (Build 1 2) (Build 1 3) (Build 1 6));
    unfold Reduced; cbn [num den]; repeat split; solve [reflexivity | lia].
Defined.

(** *** Remainder *)

Lemma Qdiv_Z_le (k k' m : Z) :
  0 < m -> (inject_Z k / inject_Z m <= inject_Z k' / inject_Z m)%Q <-> k <= k'.
Proof.
  intros Hm. destruct m as [|p|p]; try lia.
  rewrite <- !Qmake_Qdiv. unfold Qle. cbn [Qnum Qden]. nia.
Qed.

Lemma Qdiv_Z_lt (k k' m : Z) :
  0 < m -> (inject_Z k / inject_Z m < inject_Z k' / inject_Z m)%Q <-> k < k'.
Proof.
  intros Hm. destruct m as [|p|p]; try lia.
  rewrite <- !Qmake_Qdiv. unfold Qlt. cbn [Qnum Qden]. nia.
Qed.

(** X4. [f % g] for a nonzero [g] returns the canonical Fraction of
    [f - g * floor(f / g)]; the remainder lies between zero (included) and
    [g] (excluded), so it has the sign of the divisor. *)
Theorem mod_exact (f g : FractionDataType) :
  Reduced f -> Reduced g -> num g <> 0 ->
  exists r,
    __mod__ f (OFrac g) = Return r /\ Reduced r /\
    (value r == value f - value g * inject_Z (Qfloor (value f / value g)))%Q /\
    (0 < num g -> (0 <= value r)%Q /\ (value r < value g)%Q) /\
    (num g < 0 -> (value g < value r)%Q /\ (value r <= 0)%Q).
Proof.
  intros Hf Hg Hc.
  assert (Hb : 0 < den f) by apply Hf.
  assert (Hd : 0 < den g) by apply Hg.
  assert (Hbc : den f * num g <> 0) by nia.
  assert (Hbd : 0 < den f * den g) by nia.
  set (N := num f * den g). set (M := den f * num g).
  assert (Hq : Qfloor (value f / value g) = N / M).
  { rewrite <- (Qfloor_div_Z N M Hbc). apply Qfloor_comp.
    apply value_quotient; assumption. }
  assert (Hm : returns_value (__mod__ f (OFrac g))
                 (value f - value g * inject_Z (N / M))).
  { unfold __mod__, __floordiv__, Py.floordiv. cbn [coerce bind].
    apply Z.eqb_neq in Hc as Hc'. rewrite Hc'.
    apply Z.eqb_neq in Hbc as Hbc'. rewrite Hbc'. cbn [bind]. fold N M.
    eapply returns_value_bind.
    - destruct (int_operand g (N / M)) as (_ & _ & -> & _).
      apply (mul_value g (Build (N / M) 1) Hg (reduced_int _)).
    - intros p Hp Hpv.
      eapply returns_value_ext; [|apply sub_value; assumption].
      rewrite Hpv, value_int. reflexivity. }
  destruct Hm as (r & Hr & Hred & Hv).
  exists r. split; [exact Hr|]. split; [exact Hred|].
  split; [rewrite Hq; exact Hv|].
  assert (Hrv : (value r == inject_Z (N mod M) / inject_Z (den f * den g))%Q).
  { rewrite Hv, (value_as_quotient f Hb), (value_as_quotient g Hd).
    rewrite Z.mod_eq by assumption. unfold N, M, Z.sub.
    rewrite inject_Z_plus, inject_Z_opp, !inject_Z_mult.
    field. split; apply inject_Z_nonzero; lia. }
  assert (Hgv : (value g == inject_Z M / inject_Z (den f * den g))%Q).
  { rewrite (value_as_quotient g Hd). apply Qdiv_cross; unfold M; lia. }
  assert (H0 : (0 == inject_Z 0 / inject_Z (den f * den g))%Q).
  { unfold Qdiv. rewrite Qmult_0_l. reflexivity. }
  split; intros Hs.
  - assert (HM : 0 < M) by (unfold M; nia).
    pose proof (Z.mod_pos_bound N M HM) as [Hlo Hhi].
    split.
    + rewrite Hrv, H0. apply Qdiv_Z_le; assumption.
    + rewrite Hrv, Hgv. apply Qdiv_Z_lt; assumption.
  - assert (HM : M < 0) by (unfold M; nia).
    pose proof (Z.mod_neg_bound N M HM) as [Hlo Hhi].
    split.
    + rewrite Hrv, Hgv. apply Qdiv_Z_lt; assumption.
    + rewrite Hrv, H0. apply Qdiv_Z_le; assumption.
Qed.

(** [7/2 % 3/2 = 1/2], and [-7/2 % 3/2 = 1], not [-1/2]. *)
Lemma mod_exact_witness :
  exists r,
    __mod__ (Build (-7) 2) (OFrac (Build 3 2)) = Return r /\ Reduced r /\
    (value r == value (Build (-7) 2)
                - value (Build 3 2)
                  * inject_Z (Qfloor (value (Build (-7) 2) / value (Build 3 2))))%Q /\
    (0 < 3 -> (0 <= value r)%Q /\ (value r < value (Build 3 2))%Q) /\
    (3 < 0 -> (value (Build 3 2) < value r)%Q /\ (value r <= 0)%Q).
Proof.
  apply (mod_exact (Build (-7) 2) (Build 3 2));
    unfold Reduced; cbn [num den]; repeat split; solve [reflexivity | lia].
Defined.

Example mod_scenarios :
  __mod__ (Build 7 2) (OFrac (Build 3 2)) = Return (Build 1 2) /\
  __mod__ (Build (-7) 2) (OFrac (Build 3 2)) = Return (Build 1 1) /\
  __mod__ (Build 7 2) (OFrac (Build (-3) 2)) = Return (Build (-1) 1).
Proof. repeat split. Qed.

(** *** Unary operators, [simplify], [reciprocal] and powers *)

Lemma returns_self (f : FractionDataType) :
  Reduced f -> returns_value (Return f) (value f).
Proof.
  intros Hf. exists f. split; [reflexivity|]. split; [exact Hf | reflexivity].
Qed.

Lemma reduced_neg (f : FractionDataType) :
  Reduced f -> Reduced (Build (- num f) (den f)).
Proof.
  unfold Reduced; cbn [num den]. intros (Hd & Hg & Hz).
  rewrite Z.abs_opp. repeat split; try assumption. intros H. apply Hz. lia.
Qed.

Lemma reduced_abs (f : FractionDataType) :
  Reduced f -> Reduced (Build (Z.abs (num f)) (den f)).
Proof.
  unfold Reduced; cbn [num den]. intros (Hd & Hg & Hz).
  rewrite Z.abs_idemp. repeat split; try assumption. intros H. apply Hz. lia.
Qed.

(** X5. On a canonical Fraction [simplify] and unary plus return the
    operand itself, negation and [abs] only change the numerator, negation
    is an involution and [abs] is idempotent; and simplifying whatever the
    constructor returned changes nothing. *)
Theorem unary_exact (f : FractionDataType) (n d : Z) :
  Reduced f ->
  simplify f = Return f /\
  __pos__ f = Return f /\
  __neg__ f = Return (Build (- num f) (den f)) /\
  __abs__ f = Return (Build (Z.abs (num f)) (den f)) /\
  (r <- __neg__ f ;; __neg__ r) = Return f /\
  (r <- __abs__ f ;; __abs__ r) = __abs__ f /\
  (r <- new n d ;; simplify r) = new n d.
Proof.
  intros Hf.
  assert (En : __neg__ f = Return (Build (- num f) (den f)))
    by (apply (new_of_reduced (Build (- num f) (den f))), reduced_neg, Hf).
  assert (Ea : __abs__ f = Return (Build (Z.abs (num f)) (den f)))
    by (apply (new_of_reduced (Build (Z.abs (num f)) (den f))), reduced_abs, Hf).
  split; [apply new_of_reduced; assumption|].
  split; [apply new_of_reduced; assumption|].
  split; [exact En|]. split; [exact Ea|].
  split.
  { rewrite En. cbn [bind]. unfold __neg__. cbn [num den].
    rewrite Z.opp_involutive. apply new_of_reduced; assumption. }
  split.
  { rewrite Ea. cbn [bind]. unfold __abs__. cbn [num den].
    rewrite Z.abs_idemp.
    apply (new_of_reduced (Build (Z.abs (num f)) (den f))), reduced_abs, Hf. }
  destruct (Z.eq_dec d 0) as [->|Hd].
  - rewrite new_zero_den. reflexivity.
  - destruct (new_returns n d Hd) as (r & -> & Hr & _). cbn [bind].
    apply new_of_reduced; assumption.
Qed.

Lemma unary_exact_witness :
  __neg__ (Build 3 4) = Return (Build (-3) 4) /\
  (r <- new 6 8 ;; simplify r) = new 6 8.
Proof.
  destruct (unary_exact (Build 3 4) 6 8) as (_ & _ & Hn & _ & _ & _ & Hs).
  - unfold Reduced; cbn [num den]; repeat split; solve [reflexivity | lia].
  - split; [exact Hn | exact Hs].
Defined.

Lemma reciprocal_value (f : FractionDataType) :
  Reduced f -> num f <> 0 -> returns_value (reciprocal f) (/ value f).
Proof.
  intros Hf Hn. assert (Hd : 0 < den f) by apply Hf.
  unfold reciprocal. apply Z.eqb_neq in Hn as Hn'. rewrite Hn'.
  eapply returns_value_ext; [|apply new_value; assumption].
  rewrite (value_as_quotient f Hd).
  field. split; apply inject_Z_nonzero; lia.
Qed.

Lemma value_nonzero (f : FractionDataType) :
  0 < den f -> num f <> 0 -> ~ (value f == 0)%Q.
Proof.
  intros Hd Hn H. unfold Qeq, value in H. cbn in H. lia.
Qed.

Lemma value_zero_num (r : FractionDataType) :
  0 < den r -> ~ (value r == 0)%Q -> num r <> 0.
Proof.
  intros Hd H Hn. apply H. unfold Qeq, value. cbn. rewrite Hn. reflexivity.
Qed.

(** X6. The reciprocal of a nonzero canonical Fraction is the canonical
    Fraction of [1 / f]: taking it twice gives [f] back, [f * reciprocal(f)]
    is [1/1], and [f ** -1] and [1 / f] return the same Fraction. *)
Theorem reciprocal_exact (f : FractionDataType) :
  Reduced f -> num f <> 0 ->
  returns_value (reciprocal f) (/ value f) /\
  (r <- reciprocal f ;; reciprocal r) = Return f /\
  (r <- reciprocal f ;; __mul__ f (OFrac r)) = Return (Build 1 1) /\
  __pow__ f (PInt (-1)) = reciprocal f /\
  __rtruediv__ f (OInt 1) = reciprocal f.
Proof.
  intros Hf Hn. assert (Hd : 0 < den f) by apply Hf.
  pose proof (reciprocal_value f Hf Hn) as Hr.
  pose proof (value_nonzero f Hd Hn) as Hv0.
  split; [exact Hr|].
  split.
  { apply returns_value_unique with (q := value f); [|apply returns_self; assumption].
    eapply returns_value_bind; [exact Hr|]. intros r Hred Hv.
    assert (Hrn : num r <> 0).
    { apply value_zero_num; [apply Hred|]. rewrite Hv. intros H.
      apply Hv0. rewrite <- (Qinv_involutive (value f)), H. reflexivity. }
    eapply returns_value_ext; [|apply reciprocal_value; assumption].
    rewrite Hv. apply Qinv_involutive. }
  split.
  { apply returns_value_unique with (q := 1%Q);
      [|apply (returns_self (Build 1 1)), reduced_int].
    eapply returns_value_bind; [exact Hr|]. intros r Hred Hv.
    eapply returns_value_ext; [|apply mul_value; assumption].
    rewrite Hv. apply Qmult_inv_r. exact Hv0. }
  split.
  { unfold __pow__, reciprocal. apply Z.eqb_neq in Hn as Hn'. rewrite Hn'.
    change (-1 <? 0) with true. cbv iota. change (- -1) with 1.
    rewrite !Z.pow_1_r. reflexivity. }
  unfold __rtruediv__, __truediv__, reciprocal. rewrite new_int. cbn [bind coerce num den].
  apply Z.eqb_neq in Hn as Hn'. rewrite Hn'.
  rewrite !Z.mul_1_l. reflexivity.
Qed.

Lemma reciprocal_exact_witness :
  (r <- reciprocal (Build (-3) 4) ;; reciprocal r) = Return (Build (-3) 4) /\
  reciprocal (Build (-3) 4) = Return (Build (-4) 3).
Proof.
  split; [|reflexivity].
  apply (reciprocal_exact (Build (-3) 4));
    unfold Reduced; cbn [num den]; repeat split; solve [reflexivity | lia].
Defined.

Lemma reduced_pow (f : FractionDataType) (e : Z) :
  Reduced f -> 0 <= e -> Reduced (Build (num f ^ e) (den f ^ e)).
Proof.
  unfold Reduced; cbn [num den]. intros (Hd & Hg & Hz) He.
  split; [apply Z.pow_pos_nonneg; lia|].
  split.
  - rewrite Z.abs_pow.
    apply Z.coprime_pow_l; [assumption|]. apply Z.coprime_pow_r; assumption.
  - intros H. destruct (Z.eq_dec e 0) as [->|Hne].
    + rewrite Z.pow_0_r in H. discriminate.
    + apply Z.pow_eq_0_iff in H. destruct H as [H|[_ H]]; [lia|].
      rewrite (Hz H). apply Z.pow_1_l. lia.
Qed.

(** X7. A canonical Fraction raised to an exponent [e >= 0] is the pair
    [(num ** e, den ** e)], already in lowest terms ([f ** 0] is [1/1], also
    for zero); for a negative exponent and a nonzero Fraction the result is
    the reciprocal raised to [-e]. *)
Theorem pow_exact (f : FractionDataType) (e : Z) :
  Reduced f ->
  (0 <= e -> __pow__ f (PInt e) = Return (Build (num f ^ e) (den f ^ e))) /\
  __pow__ f (PInt 0) = Return (Build 1 1) /\
  (e < 0 -> num f <> 0 ->
   __pow__ f (PInt e) = (r <- reciprocal f ;; __pow__ r (PInt (- e)))).
Proof.
  intros Hf. assert (Hd : 0 < den f) by apply Hf.
  assert (Hpos : forall g k, Reduced g -> 0 <= k ->
                 __pow__ g (PInt k) = Return (Build (num g ^ k) (den g ^ k))).
  { intros g k Hg Hk. unfold __pow__.
    assert (H : (k <? 0) = false) by (apply Z.ltb_ge; lia). rewrite H.
    apply (new_of_reduced (Build (num g ^ k) (den g ^ k))), reduced_pow; assumption. }
  split; [apply Hpos; assumption|].
  split; [apply (Hpos f 0 Hf); lia|].
  intros He Hn.
  apply returns_value_unique
    with (q := (inject_Z (den f ^ (- e)) / inject_Z (num f ^ (- e)))%Q).
  - unfold __pow__. assert (H : (e <? 0) = true) by (apply Z.ltb_lt; lia). rewrite H.
    apply new_value. apply Z.pow_nonzero; lia.
  - eapply returns_value_bind; [apply reciprocal_value; assumption|].
    intros r Hr Hv. rewrite (Hpos r (- e) Hr) by lia.
    assert (Hrd : 0 < den r) by apply Hr.
    assert (Hx : num r * num f = den f * den r).
    { apply Qdiv_cross_inv; [lia | lia |].
      rewrite <- (value_as_quotient r Hrd), Hv, (value_as_quotient f Hd).
      field. split; apply inject_Z_nonzero; lia. }
    exists (Build (num r ^ (- e)) (den r ^ (- e))).
    split; [reflexivity|]. split; [apply reduced_pow; [assumption | lia]|].
    rewrite value_as_quotient by (cbn [den]; apply Z.pow_pos_nonneg; lia).
    cbn [num den]. apply Qdiv_cross.
    + apply Z.pow_nonzero; lia.
    + apply Z.pow_nonzero; lia.
    + rewrite <- !Z.pow_mul_l. f_equal. exact Hx.
Qed.

Lemma pow_exact_witness :
  __pow__ (Build 2 3) (PInt 3) = Return (Build 8 27) /\
  __pow__ (Build (-2) 3) (PInt (-3))
  = (r <- reciprocal (Build (-2) 3) ;; __pow__ r (PInt 3)).
Proof.
  destruct (pow_exact (Build 2 3) 3) as (H1 & _).
  { unfold Reduced; cbn [num den]; repeat split; solve [reflexivity | lia]. }
  destruct (pow_exact (Build (-2) 3) (-3)) as (_ & _ & H3).
  { unfold Reduced; cbn [num den]; repeat split; solve [reflexivity | lia]. }
  split; [apply H1; lia | apply H3; cbn [num]; lia].
Defined.

(** *** Conversion to [int], order, proper Fractions *)

Lemma Qfloor_value (f : FractionDataType) :
  0 < den f -> Qfloor (value f) = num f / den f.
Proof.
  intros Hd. unfold value, Qfloor. rewrite Z2Pos.id by assumption. reflexivity.
Qed.

(** X8. [int(f)] is the floor of the value, not its truncation: for a
    Fraction that is not negative, or is an integer, both agree, and for a
    negative Fraction that is not an integer [int(f)] is one below the
    truncated quotient. *)
Theorem int_is_floor (f : FractionDataType) :
  Reduced f ->
  __int__ f = Return (Qfloor (value f)) /\
  (0 <= num f \/ den f = 1 -> __int__ f = Return (num f ÷ den f)) /\
  (num f < 0 -> den f <> 1 -> __int__ f = Return (num f ÷ den f - 1)).
Proof.
  intros Hf. destruct Hf as (Hd & Hg & Hz).
  assert (Hd0 : (den f =? 0) = false) by (apply Z.eqb_neq; lia).
  unfold __int__, Py.floordiv. rewrite Hd0.
  split; [rewrite Qfloor_value by assumption; reflexivity|].
  split.
  - intros [Hn | H1].
    + rewrite Z.quot_div_nonneg by lia. reflexivity.
    + rewrite H1, Z.quot_1_r, Z.div_1_r. reflexivity.
  - intros Hn H1. f_equal.
    assert (Hm : (- num f) mod den f <> 0).
    { intros H. apply Z.mod_divide in H; [|lia].
      apply H1. rewrite <- Hg. symmetry. apply Z.gcd_unique; try lia.
      - rewrite Z.abs_neq by lia. exact H.
      - apply Z.divide_refl.
      - intros q _ Hq. exact Hq. }
    rewrite <- (Z.opp_involutive (num f)) at 1.
    rewrite (Z.div_opp_l_nz (- num f) (den f)) by (assumption || lia).
    rewrite Z.quot_div by lia.
    rewrite Z.sgn_neg, Z.sgn_pos, (Z.abs_neq (num f)), (Z.abs_eq (den f)) by lia.
    lia.
Qed.

Lemma int_is_floor_witness :
  __int__ (Build (-7) 3) = Return (Qfloor (value (Build (-7) 3))) /\
  __int__ (Build (-7) 3) = Return (-3) /\
  (-7) ÷ 3 = -2.
Proof.
  destruct (int_is_floor (Build (-7) 3)) as (H & _).
  - unfold Reduced; cbn [num den]; repeat split; solve [reflexivity | lia].
  - split; [exact H | split; reflexivity].
Defined.

(** X9. On canonical Fractions exactly one of [f < g], [f == g], [f > g]
    answers [True]; [<=] is [<] or [==], [>=] is [>] or [==], [!=] is the
    negation of [==], [f > g] is [g < f], and [<] is transitive. *)
Theorem comparisons_form_total_order (f g h : FractionDataType) :
  Reduced f -> Reduced g -> Reduced h ->
  (exists a b c : bool,
     __lt__ f (OFrac g) = Return a /\
     __eq__ f (OFrac g) = Return b /\
     __gt__ f (OFrac g) = Return c /\
     __le__ f (OFrac g) = Return (a || b) /\
     __ge__ f (OFrac g) = Return (c || b) /\
     __ne__ f (OFrac g) = Return (negb b) /\
     __lt__ g (OFrac f) = Return c /\
     (a = true /\ b = false /\ c = false \/
      a = false /\ b = true /\ c = false \/
      a = false /\ b = false /\ c = true)) /\
  (__lt__ f (OFrac g) = Return true -> __lt__ g (OFrac h) = Return true ->
   __lt__ f (OFrac h) = Return true).
Proof.
  intros Hf Hg Hh.
  assert (Hb : 0 < den f) by apply Hf.
  assert (Hd : 0 < den g) by apply Hg.
  assert (He : 0 < den h) by apply Hh.
  unfold __ne__, __lt__, __eq__, __gt__, __le__, __ge__. cbn [coerce bind].
  split.
  - destruct (Z.compare_spec (num f * den g) (num g * den f)) as [E|L|G].
    + assert (f = g) by (apply reduced_unique; assumption). subst g.
      exists false, true, false.
      rewrite Z.gtb_ltb, Z.geb_leb, Z.ltb_irrefl, Z.leb_refl, !Z.eqb_refl.
      do 7 (split; [reflexivity|]). right; left. repeat split.
    + assert (Hne : (num f =? num g) && (den f =? den g) = false).
      { apply andb_false_iff.
        destruct (Z.eqb_spec (num f) (num g)) as [E1|]; [|left; reflexivity].
        destruct (Z.eqb_spec (den f) (den g)) as [E2|]; [|right; reflexivity].
        rewrite E1, E2 in L. lia. }
      assert (H1 : (num f * den g <? num g * den f) = true) by (apply Z.ltb_lt; lia).
      assert (H2 : (num g * den f <? num f * den g) = false) by (apply Z.ltb_ge; lia).
      assert (H3 : (num f * den g <=? num g * den f) = true) by (apply Z.leb_le; lia).
      assert (H4 : (num g * den f <=? num f * den g) = false) by (apply Z.leb_gt; lia).
      exists true, false, false.
      rewrite Hne, Z.gtb_ltb, Z.geb_leb, H1, H2, H3, H4.
      do 7 (split; [reflexivity|]). left. repeat split.
    + assert (Hne : (num f =? num g) && (den f =? den g) = false).
      { apply andb_false_iff.
        destruct (Z.eqb_spec (num f) (num g)) as [E1|]; [|left; reflexivity].
        destruct (Z.eqb_spec (den f) (den g)) as [E2|]; [|right; reflexivity].
        rewrite E1, E2 in G. lia. }
      assert (H1 : (num f * den g <? num g * den f) = false) by (apply Z.ltb_ge; lia).
      assert (H2 : (num g * den f <? num f * den g) = true) by (apply Z.ltb_lt; lia).
      assert (H3 : (num f * den g <=? num g * den f) = false) by (apply Z.leb_gt; lia).
      assert (H4 : (num g * den f <=? num f * den g) = true) by (apply Z.leb_le; lia).
      exists false, false, true.
      rewrite Hne, Z.gtb_ltb, Z.geb_leb, H1, H2, H3, H4.
      do 7 (split; [reflexivity|]). right; right. repeat split.
  - intros [= H1] [= H2]. f_equal.
    apply Z.ltb_lt in H1, H2. apply Z.ltb_lt.
    apply Z.mul_lt_mono_pos_r with (p := den g); [assumption|]. nia.
Qed.

Lemma comparisons_form_total_order_witness :
  __lt__ (Build 1 3) (OFrac (Build 2 3)) = Return true.
Proof.
  destruct (comparisons_form_total_order (Build 1 3) (Build 1 2) (Build 2 3))
    as (_ & Ht).
  - unfold Reduced; cbn [num den]; repeat split; solve [reflexivity | lia].
  - unfold Reduced; cbn [num den]; repeat split; solve [reflexivity | lia].
  - unfold Reduced; cbn [num den]; repeat split; solve [reflexivity | lia].
  - apply Ht; reflexivity.
Defined.

(** X10. [is_improper] is the negation of [is_proper], and a canonical
    Fraction is proper exactly when its value lies strictly between [-1] and
    [1]; zero is proper, every other integer is improper. *)
Theorem proper_iff_below_one (f : FractionDataType) :
  Reduced f ->
  is_improper f = negb (is_proper f) /\
  (is_proper f = true <-> (- (1) < value f)%Q /\ (value f < 1)%Q) /\
  (den f = 1 -> is_proper f = (num f =? 0)).
Proof.
  intros Hf. assert (Hd : 0 < den f) by apply Hf.
  unfold is_proper, is_improper.
  split; [rewrite Z.geb_leb, Z.ltb_antisym, negb_involutive; reflexivity|].
  split.
  - rewrite Z.ltb_lt. unfold Qlt, value. cbn. rewrite Z2Pos.id by assumption. lia.
  - intros H1. rewrite H1.
    destruct (Z.eqb_spec (num f) 0) as [E|E]; [apply Z.ltb_lt | apply Z.ltb_ge]; lia.
Qed.

Lemma proper_iff_below_one_witness :
  is_improper (Build (-3) 4) = negb (is_proper (Build (-3) 4)) /\
  is_proper (Build (-3) 4) = true.
Proof.
  destruct (proper_iff_below_one (Build (-3) 4)) as (H & _).
  - unfold Reduced; cbn [num den]; repeat split; solve [reflexivity | lia].
  - split; [exact H | reflexivity].
Defined.

(** *** Mixed numbers of negative Fractions *)

Lemma from_mixed_self (f : FractionDataType) (k : Z) :
  Reduced f -> (new k (den f) = Return f <-> k = num f).
Proof.
  intros Hf. assert (Hd : 0 < den f) by apply Hf. split.
  - intros H. destruct (new_returns k (den f)) as (r & Hr & _ & Hv); [lia|].
    rewrite H in Hr. injection Hr as <-. nia.
  - intros ->. apply new_of_reduced. exact Hf.
Qed.

(** X11. The remainder of [as_mixed_number] lies in [0, den), and
    [from_mixed] gives the Fraction back exactly when the Fraction is not
    negative or its denominator is at most [2]: every negative Fraction with
    a denominator above [2] comes back changed. *)
Theorem mixed_number_round_trip_iff (f : FractionDataType) :
  Reduced f ->
  0 <= Z.abs (num f) mod den f < den f /\
  ((t <- as_mixed_number f ;;
    let '(whole, remainder, d) := t in from_mixed whole remainder d) = Return f
   <-> 0 <= num f \/ den f <= 2).
Proof.
  intros Hf. pose proof Hf as (Hd & Hg & Hz).
  split; [apply Z.mod_pos_bound; assumption|].
  assert (Hd0 : (den f =? 0) = false) by (apply Z.eqb_neq; lia).
  unfold as_mixed_number, Py.floordiv, Py.modulo. rewrite Hd0. cbn [bind].
  unfold from_mixed. rewrite (from_mixed_self f _ Hf).
  pose proof (Z.div_mod (num f) (den f) ltac:(lia)) as Hdm.
  pose proof (Z.mod_pos_bound (num f) (den f) Hd) as Hm.
  assert (Hint : num f mod den f = 0 -> den f = 1).
  { intros Hm0. rewrite <- Hg. symmetry. apply Z.gcd_unique; try lia.
    - apply Z.divide_abs_r. apply Z.mod_divide; [lia | assumption].
    - apply Z.divide_refl.
    - intros k _ Hk. exact Hk. }
  assert (Hopp : num f mod den f <> 0 ->
                 (- num f) mod den f = den f - num f mod den f)
    by (intros H; apply Z.mod_opp_l_nz; [lia | assumption]).
  assert (Hopp0 : num f mod den f = 0 -> (- num f) mod den f = 0)
    by (intros H; apply Z.mod_opp_l_z; [lia | assumption]).
  assert (Hhalf : den f = 2 * (num f mod den f) -> den f <= 2).
  { intros H2.
    assert (Hdiv : (num f mod den f | Z.gcd (Z.abs (num f)) (den f))).
    { apply Z.gcd_greatest.
      - apply Z.divide_abs_r. exists (2 * (num f / den f) + 1). nia.
      - exists 2. lia. }
    rewrite Hg in Hdiv. apply Z.divide_1_r_nonneg in Hdiv; lia. }
  rewrite (Z.mul_comm (den f)) in Hdm.
  set (q := num f / den f * den f) in *.
  set (m := num f mod den f) in *.
  destruct (Z.le_gt_cases 0 (num f)) as [Hn|Hn].
  { rewrite Z.abs_eq by assumption. fold m. split; [auto | intros _; lia]. }
  rewrite Z.abs_neq by lia.
  set (m' := (- num f) mod den f) in *.
  destruct (Z.eq_dec m 0) as [Hm0|Hm0].
  - specialize (Hint Hm0). specialize (Hopp0 Hm0). split; intros _; lia.
  - specialize (Hopp Hm0). split.
    + intros E. right. apply Hhalf. lia.
    + intros [H|H]; [lia|]. lia.
Qed.

Lemma mixed_number_round_trip_iff_witness :
  ~ ((t <- as_mixed_number (Build (-7) 3) ;;
      let '(whole, remainder, d) := t in from_mixed whole remainder d)
     = Return (Build (-7) 3)) /\
  (t <- as_mixed_number (Build (-3) 2) ;;
   let '(whole, remainder, d) := t in from_mixed whole remainder d)
  = Return (Build (-3) 2).
Proof.
  destruct (mixed_number_round_trip_iff (Build (-7) 3)) as (_ & H1).
  { unfold Reduced; cbn [num den]; repeat split; solve [reflexivity | lia]. }
  destruct (mixed_number_round_trip_iff (Build (-3) 2)) as (_ & H2).
  { unfold Reduced; cbn [num den]; repeat split; solve [reflexivity | lia]. }
  split.
  - intros H. apply H1 in H. cbn [num den] in H. lia.
  - apply H2. right. cbn [den]. lia.
Defined.

(** X21. [from_mixed(whole, n, d)] with [d <> 0] returns the canonical
    Fraction of [whole + n/d]: the fractional part is added as it is, also
    below a negative whole part. *)
Theorem from_mixed_value (whole n d : Z) :
  d <> 0 ->
  returns_value (from_mixed whole n d) (inject_Z whole + inject_Z n / inject_Z d).
Proof.
  intros Hd. unfold from_mixed.
  eapply returns_value_ext; [|apply new_value; assumption].
  rewrite inject_Z_plus, inject_Z_mult. field. apply inject_Z_nonzero; assumption.
Qed.

(** [from_mixed(-2, 1, 3)] is [-5/3]. *)
Lemma from_mixed_value_witness :
  returns_value (from_mixed (-2) 1 3) (inject_Z (-2) + inject_Z 1 / inject_Z 3) /\
  from_mixed (-2) 1 3 = Return (Build (-5) 3).
Proof.
  split; [apply (from_mixed_value (-2) 1 3); lia | reflexivity].
Defined.

(** *** Float arguments of the constructor *)

Lemma non_integral_not_zero (y : float) :
  is_integer y = false -> eq_zero (PFloat y) = false.
Proof.
  unfold is_integer, eq_zero. rewrite eqb_spec.
  change (Prim2SF 0) with (S754_zero false).
  destruct (Prim2SF y) as [s|s| |s m e]; intros H.
  - discriminate H.
  - destruct s; reflexivity.
  - reflexivity.
  - destruct s; reflexivity.
Qed.

(** X12. Floats handed to the constructor: two integral floats behave as
    the integers they denote.  A denominator that is not integral passes the
    zero test and is then truncated toward zero: when it truncates to a
    nonzero [d] the result is [FractionDataType(n, d)], but when it
    truncates to [0] the constructor returns a Fraction whose denominator
    is [0] (numerator [1] or [-1]) for [n <> 0] and fails with
    [ZeroDivisionError] for [n = 0]. *)
Theorem float_arguments_truncate (x y : float) (n d : Z) :
  int_of_float y = Return d ->
  (is_integer x = true -> is_integer y = true -> int_of_float x = Return n ->
   __init__ (PFloat x) (PFloat y) = new n d) /\
  (is_integer y = false -> d <> 0 -> __init__ (PInt n) (PFloat y) = new n d) /\
  (is_integer y = false -> d = 0 -> n <> 0 ->
   __init__ (PInt n) (PFloat y) = Return (Build (Z.sgn n) 0)) /\
  (is_integer y = false -> d = 0 -> n = 0 ->
   __init__ (PInt n) (PFloat y)
   = Raise (ZeroDivisionError "integer division or modulo by zero")).
Proof.
  intros Hy. split; [|split; [|split]].
  - intros Ix Iy Hx. unfold new, __init__, integral.
    rewrite Ix, Iy, Hx, Hy. reflexivity.
  - intros Iy Hd. unfold new, __init__, integral. rewrite Iy. cbn [bind].
    rewrite (non_integral_not_zero y Iy). cbn [Py.int_ bind eq_zero]. rewrite Hy.
    apply Z.eqb_neq in Hd. rewrite Hd. reflexivity.
  - intros Iy Hd Hn. subst d. unfold __init__, integral. rewrite Iy. cbn [bind].
    rewrite (non_integral_not_zero y Iy). cbn [Py.int_ bind]. rewrite Hy.
    cbn [bind]. change (0 <? 0) with false. cbv iota beta zeta.
    change (Z.abs 0) with 0. rewrite Z.gcd_0_r, Z.abs_idemp.
    unfold Py.floordiv.
    assert (H : (Z.abs n =? 0) = false) by (apply Z.eqb_neq; lia).
    rewrite H. cbn [bind]. rewrite Z.div_0_l by lia.
    do 2 f_equal. destruct n as [|p|p]; try lia.
    + cbn [Z.abs Z.sgn]. apply Z.div_same. lia.
    + cbn [Z.abs Z.sgn]. change (Z.neg p) with (- Z.pos p).
      rewrite Z.div_opp_l_z by (try lia; apply Z.mod_same; lia).
      rewrite Z.div_same by lia. reflexivity.
  - intros Iy Hd Hn. subst d n. unfold __init__, integral. rewrite Iy. cbn [bind].
    rewrite (non_integral_not_zero y Iy). cbn [Py.int_ bind]. rewrite Hy.
    reflexivity.
Qed.

(** [FractionDataType(3, 0.5)] is the pair [(1, 0)]; [FractionDataType(3,
    2.5)] is [3/2]. *)
Lemma float_arguments_truncate_witness :
  __init__ (PInt 3) (PFloat 0.5) = Return (Build 1 0) /\
  __init__ (PInt 3) (PFloat 2.5) = new 3 2.
Proof.
  destruct (float_arguments_truncate 0%float 0.5%float 3 0) as (_ & _ & H3 & _);
    [reflexivity|].
  destruct (float_arguments_truncate 0%float 2.5%float 3 2) as (_ & H2 & _);
    [reflexivity|].
  split; [apply H3; solve [reflexivity | lia] | apply H2; solve [reflexivity | lia]].
Defined.

End FractionAlgebra.

(** * Algebra of binary64 operations *)

Module FloatAlgebra.

Import FloatFacts.
Local Open Scope float_scope.

(** The sign given to [binary_round_aux] only lands on the result. *)
Lemma binary_round_aux_abs (s s' : bool) (m e : Z) (l : location) :
  SFabs (binary_round_aux prec emax s m e l)
  = SFabs (binary_round_aux prec emax s' m e l).
Proof.
  unfold binary_round_aux.
  destruct (shr_fexp prec emax m e l) as [mrs e1].
  destruct (shr_fexp prec emax _ e1 loc_Exact) as [mrs2 e2].
  destruct (shr_m mrs2); try reflexivity.
  destruct (e2 <=? emax - prec)%Z; reflexivity.
Qed.

Lemma binary_round_aux_opp (s : bool) (m e : Z) (l : location) :
  SFopp (binary_round_aux prec emax s m e l)
  = binary_round_aux prec emax (negb s) m e l.
Proof.
  unfold binary_round_aux.
  destruct (shr_fexp prec emax m e l) as [mrs e1].
  destruct (shr_fexp prec emax _ e1 loc_Exact) as [mrs2 e2].
  destruct (shr_m mrs2); try reflexivity.
  destruct (e2 <=? emax - prec)%Z; reflexivity.
Qed.

Lemma binary_normalize_abs_opp (z e : Z) :
  SFabs (binary_normalize prec emax (- z) e false)
  = SFabs (binary_normalize prec emax z e false).
Proof.
  destruct z as [|p|p]; cbn [Z.opp binary_normalize]; try reflexivity;
    unfold binary_round;
    destruct (shl_align p e _) as [mz ez]; apply binary_round_aux_abs.
Qed.

Lemma SFsub_abs_sym (a b : spec_float) :
  SFabs (SF64sub a b) = SFabs (SF64sub b a).
Proof.
  unfold SF64sub.
  destruct a as [sa|sa| |sa ma ea], b as [sb|sb| |sb mb eb];
    try reflexivity; try (destruct sa, sb; reflexivity).
  cbn [SFsub]. rewrite (Z.min_comm eb ea).
  rewrite <- binary_normalize_abs_opp. f_equal. f_equal. lia.
Qed.

(** [|b - a|] and [|a - b|] are the same float. *)
Lemma abs_sub_sym (a b : float) : abs (b - a) = abs (a - b).
Proof.
  apply Prim2SF_inj. rewrite !abs_spec, !sub_spec. apply SFsub_abs_sym.
Qed.

Lemma SFmul_comm (a b : spec_float) : SF64mul a b = SF64mul b a.
Proof.
  unfold SF64mul.
  destruct a as [sa|sa| |sa ma ea], b as [sb|sb| |sb mb eb];
    try reflexivity; try (destruct sa, sb; reflexivity).
  cbn [SFmul]. rewrite (xorb_comm sb sa), (Pos.mul_comm mb ma), (Z.add_comm eb ea).
  reflexivity.
Qed.

Lemma float_mul_comm (a b : float) : a * b = b * a.
Proof. apply Prim2SF_inj. rewrite !mul_spec. apply SFmul_comm. Qed.

Lemma SFadd_comm (a b : spec_float) : SF64add a b = SF64add b a.
Proof.
  unfold SF64add.
  destruct a as [sa|sa| |sa ma ea], b as [sb|sb| |sb mb eb];
    try reflexivity; try (destruct sa, sb; reflexivity).
  cbn [SFadd]. rewrite (Z.min_comm eb ea). f_equal. lia.
Qed.

Lemma float_add_comm (a b : float) : a + b = b + a.
Proof. apply Prim2SF_inj. rewrite !add_spec. apply SFadd_comm. Qed.

Lemma float_opp_involutive (a : float) : - - a = a.
Proof.
  apply Prim2SF_inj. rewrite !opp_spec.
  destruct (Prim2SF a) as [s|s| |s m e]; cbn [SFopp]; rewrite ?negb_involutive;
    reflexivity.
Qed.

Lemma float_mul_opp_r (a b : float) : b * - a = - (a * b).
Proof.
  apply Prim2SF_inj. rewrite opp_spec, !mul_spec, opp_spec. unfold SF64mul.
  destruct (Prim2SF a) as [sa|sa| |sa ma ea], (Prim2SF b) as [sb|sb| |sb mb eb];
    try reflexivity; try (destruct sa, sb; reflexivity).
  cbn [SFmul SFopp]. rewrite binary_round_aux_opp.
  rewrite (Pos.mul_comm mb ma), (Z.add_comm eb ea).
  f_equal. destruct sa, sb; reflexivity.
Qed.

(** A float is finite when it is a zero or has a mantissa. *)
Lemma is_finite_spec (a : float) :
  is_finite a = match Prim2SF a with
                | S754_zero _ | S754_finite _ _ _ => true
                | _ => false
                end.
Proof.
  unfold is_finite, is_nan, is_infinity. rewrite !eqb_spec, abs_spec.
  change (Prim2SF infinity) with (S754_infinity false).
  destruct (Prim2SF a) as [s|s| |s m e]; try reflexivity.
  - destruct s; reflexivity.
  - unfold SFeqb, SFcompare. cbn [SFabs].
    rewrite Z.compare_refl, Pos.compare_cont_refl.
    destruct s; reflexivity.
Qed.

Lemma is_nan_spec (a : float) :
  is_nan a = match Prim2SF a with S754_nan => true | _ => false end.
Proof.
  unfold is_nan. rewrite eqb_spec.
  destruct (Prim2SF a) as [s|s| |s m e]; try reflexivity.
  - destruct s; reflexivity.
  - unfold SFeqb, SFcompare. rewrite Z.compare_refl, Pos.compare_cont_refl.
    destruct s; reflexivity.
Qed.

(** [a == a] fails only for NaN. *)
Lemma float_eqb_refl (a : float) : (a =? a) = negb (is_nan a).
Proof. unfold is_nan. rewrite negb_involutive. reflexivity. Qed.

(** A finite float minus itself, or plus its opposite, is [+0.0]; for an
    infinity or NaN the result is NaN. *)
Lemma sub_diag (a : float) :
  a - a = if is_finite a then 0 else nan.
Proof.
  apply Prim2SF_inj. rewrite sub_spec, is_finite_spec. unfold SF64sub.
  destruct (Prim2SF a) as [s|s| |s m e]; try (destruct s; reflexivity);
    try reflexivity.
  cbn [SFsub]. unfold shl_align. rewrite Z.min_id, Z.sub_diag. cbn [fst].
  rewrite ?Z.sub_diag. reflexivity.
Qed.

Lemma add_opp_diag (a : float) :
  a + - a = if is_finite a then 0 else nan.
Proof.
  apply Prim2SF_inj. rewrite add_spec, opp_spec, is_finite_spec. unfold SF64add.
  destruct (Prim2SF a) as [s|s| |s m e]; try (destruct s; reflexivity);
    try reflexivity.
  cbn [SFadd SFopp]. unfold shl_align. rewrite Z.min_id, Z.sub_diag. cbn [fst].
  replace (cond_Zopp s (Z.pos m) + cond_Zopp (negb s) (Z.pos m))%Z with 0%Z
    by (destruct s; cbn [cond_Zopp negb]; lia).
  reflexivity.
Qed.

(** [isclose] does not depend on the order of the two values. *)
Lemma isclose_sym (a b rel_tol abs_tol : float) :
  Math.isclose a b rel_tol abs_tol = Math.isclose b a rel_tol abs_tol.
Proof.
  unfold Math.isclose.
  destruct ((rel_tol <? 0) || (abs_tol <? 0)); [reflexivity|].
  assert (E : (a =? b) = (b =? a)).
  { rewrite !eqb_spec. unfold SFeqb, SFcompare.
    destruct (Prim2SF a) as [sa|sa| |sa ma ea], (Prim2SF b) as [sb|sb| |sb mb eb];
      try reflexivity; try (destruct sa, sb; reflexivity).
    change (Pos.compare_cont Eq ma mb) with (ma ?= mb)%positive.
    change (Pos.compare_cont Eq mb ma) with (mb ?= ma)%positive.
    rewrite (Z.compare_antisym ea eb), (Pos.compare_antisym ma mb).
    destruct sa, sb, (ea ?= eb)%Z, (ma ?= mb)%positive; reflexivity. }
  rewrite E. destruct (b =? a); [reflexivity|].
  rewrite (orb_comm (is_infinity a)).
  destruct (is_infinity b || is_infinity a); [reflexivity|].
  rewrite (abs_sub_sym a b).
  rewrite (orb_comm (abs (a - b) <=? abs (rel_tol * b))). reflexivity.
Qed.

(** A value is close to itself unless it is NaN. *)
Lemma isclose_refl (a rel_tol abs_tol : float) :
  ((rel_tol <? 0) || (abs_tol <? 0)) = false ->
  Math.isclose a a rel_tol abs_tol = Return (negb (is_nan a)).
Proof.
  intros Htol. unfold Math.isclose. rewrite Htol, float_eqb_refl.
  destruct (is_nan a) eqn:Hn; [|reflexivity]. cbn [negb].
  unfold is_infinity. rewrite is_nan_spec in Hn.
  rewrite !eqb_spec, !leb_spec, !abs_spec, sub_spec, mul_spec.
  destruct (Prim2SF a) as [s|s| |s m e]; try discriminate Hn.
  destruct (Prim2SF rel_tol) as [s|s| |s m e], (Prim2SF abs_tol) as [s'|s'| |s' m' e'];
    reflexivity.
Qed.

End FloatAlgebra.

(** * Further properties of Point and Line *)

Module GeoAlgebra.

Import Geo FloatFacts FloatAlgebra GeoFacts.
Local Open Scope float_scope.

(** X13. A line is vertical exactly when [|B| <= 1e-12] and horizontal
    exactly when [|A| <= 1e-12]; [slope] answers [None] for a vertical line
    and [-A / B] for every other one, and never fails in the division. *)
Theorem slope_cases (l : Line) :
  Line.is_vertical l = Return (abs (B l) <=? Math.tol_1e_12) /\
  Line.is_horizontal l = Return (abs (A l) <=? Math.tol_1e_12) /\
  Line.slope l =
  (if abs (B l) <=? Math.tol_1e_12 then Return None
   else Return (Some (- A l / B l))).
Proof.
  unfold Line.slope, Line.is_vertical, Line.is_horizontal.
  rewrite !isclose_zero. cbn [bind]. repeat split.
  destruct (abs (B l) <=? Math.tol_1e_12) eqn:H; [reflexivity|].
  apply outside_tolerance_nonzero in H.
  rewrite float_truediv_nonzero by assumption. reflexivity.
Qed.

(** X14. The tolerant predicates do not depend on the order of their
    operands: [is_parallel], [is_perpendicular] and [Point.__eq__] are
    symmetric, and so is [dot]. *)
Theorem predicates_symmetric (l1 l2 : Line) (p q : Point) :
  Line.is_parallel l1 (LineObj l2) = Line.is_parallel l2 (LineObj l1) /\
  Line.is_perpendicular l1 (LineObj l2) = Line.is_perpendicular l2 (LineObj l1) /\
  Point.__eq__ p (PointObj q) = Point.__eq__ q (PointObj p) /\
  Point.dot p (PointObj q) = Point.dot q (PointObj p).
Proof.
  unfold Line.is_parallel, Line.is_perpendicular, Point.__eq__, Point.dot.
  split; [apply isclose_sym|].
  split; [rewrite (float_mul_comm (A l1)), (float_mul_comm (B l1)); reflexivity|].
  split.
  - rewrite (isclose_sym (x p)), (isclose_sym (y p)). reflexivity.
  - rewrite (float_mul_comm (x p)), (float_mul_comm (y p)). reflexivity.
Qed.

(** X15. [copy] and [from_tuple(to_tuple())] return the very same
    coordinates, but a point compares equal to itself only when neither
    coordinate is NaN; likewise a line is parallel to itself unless [A * B]
    is NaN. *)
Theorem equality_reflexive_unless_nan (p : Point) (l : Line) :
  Point.copy p = Return p /\
  Point.from_tuple (Point.to_tuple p) = Return p /\
  Point.__eq__ p (PointObj p) = Return (negb (is_nan (x p)) && negb (is_nan (y p))) /\
  Line.is_parallel l (LineObj l) = Return (negb (is_nan (A l * B l))).
Proof.
  destruct p as [px py].
  split; [reflexivity|]. split; [reflexivity|].
  unfold Point.__eq__, Line.is_parallel. cbn [x y].
  rewrite !isclose_refl by reflexivity. cbn [bind].
  split; [destruct (is_nan px); reflexivity | reflexivity].
Qed.

Lemma within_tolerance_not_infinite (a b : float) :
  (abs (a - b) <=? Math.tol_1e_12) = true ->
  is_infinity a = false /\ is_infinity b = false.
Proof.
  unfold is_infinity. rewrite leb_spec, !eqb_spec, !abs_spec, sub_spec.
  change (Prim2SF Math.tol_1e_12)
    with (S754_finite false 4951760157141521 (-92)).
  change (Prim2SF infinity) with (S754_infinity false).
  unfold SF64sub.
  destruct (Prim2SF a) as [sa|sa| |sa ma ea], (Prim2SF b) as [sb|sb| |sb mb eb];
    intros H; try (split; reflexivity); try discriminate H;
    try (destruct sa, sb; discriminate H).
Qed.

(** X16. Whenever [intersection_with] finds no point, [is_parallel] says
    the two lines are parallel; the converse fails, since [is_parallel] also
    accepts a relative difference of [1e-9]. *)
Theorem no_intersection_implies_parallel (l1 l2 : Line) :
  (Line.intersection_with l1 (LineObj l2) = Return None ->
   Line.is_parallel l1 (LineObj l2) = Return true) /\
  (exists a b c,
     Line.is_parallel a (LineObj b) = Return true /\
     Line.intersection_with a (LineObj b) = Return (Some c)).
Proof.
  split.
  - rewrite intersection_with_eq. cbv zeta.
    destruct (abs (A l1 * B l2 - A l2 * B l1) <=? Math.tol_1e_12) eqn:H;
      [intros _ | discriminate].
    destruct (within_tolerance_not_infinite _ _ H) as [Ia Ib].
    unfold Line.is_parallel, Math.isclose.
    change ((Math.tol_1e_9 <? 0) || (Math.tol_1e_12 <? 0)) with false. cbv iota.
    destruct (A l1 * B l2 =? A l2 * B l1); [reflexivity|].
    rewrite Ia, Ib. cbn [orb]. rewrite abs_sub_sym, H, orb_true_r. reflexivity.
  - exists (BuildLine 1048576 1 0), (BuildLine 1048576.0001220703125 1 0).
    eexists. split; vm_compute; reflexivity.
Qed.

Lemma isclose_zero_or_nan (s : float) :
  Math.isclose (if is_finite s then 0 else nan) 0 Math.default_rel_tol Math.tol_1e_9
  = Return (is_finite s).
Proof. destruct (is_finite s); reflexivity. Qed.

(** X17. The line [parallel_through(p)] contains [p] and the line
    [perpendicular_through(p)] contains [p], exactly -- the residual is
    [+0.0] -- whenever the sum that defines the new constant term is
    finite; the first is parallel to the original unless [A * B] is NaN and
    the second is perpendicular to it whenever [A * B] is finite. *)
Theorem through_lines (l : Line) (p : Point) :
  (m <- Line.parallel_through l (PointObj p) ;; Line.contains_point m (PointObj p))
  = Return (is_finite (A l * x p + B l * y p)) /\
  (m <- Line.parallel_through l (PointObj p) ;; Line.is_parallel l (LineObj m))
  = Return (negb (is_nan (A l * B l))) /\
  (m <- Line.perpendicular_through l (PointObj p) ;; Line.contains_point m (PointObj p))
  = Return (is_finite (B l * x p + - A l * y p)) /\
  (m <- Line.perpendicular_through l (PointObj p) ;; Line.is_perpendicular l (LineObj m))
  = Return (is_finite (A l * B l)).
Proof.
  unfold Line.parallel_through, Line.perpendicular_through. cbv zeta.
  unfold Line.new, Line.__init__. cbn [float_ bind].
  unfold Line.contains_point, Line.is_parallel, Line.is_perpendicular.
  cbn [A B C].
  rewrite !add_opp_diag, !isclose_zero_or_nan.
  rewrite isclose_refl by reflexivity.
  rewrite float_mul_opp_r, add_opp_diag, isclose_zero_or_nan.
  repeat split.
Qed.

(** X18. [from_points] does not reject two coincident points: for a point
    with finite coordinates (and finite [x * y]) it returns the degenerate
    line [0x + 0y + 0 = 0], which is reported both vertical and horizontal
    and has no slope. *)
Theorem from_points_coincident (p : Point) :
  is_finite (x p) = true -> is_finite (y p) = true ->
  is_finite (x p * y p) = true ->
  Line.from_points (PointObj p) (PointObj p) = Return (BuildLine 0 0 0) /\
  (l <- Line.from_points (PointObj p) (PointObj p) ;; Line.is_vertical l) = Return true /\
  (l <- Line.from_points (PointObj p) (PointObj p) ;; Line.is_horizontal l) = Return true /\
  (l <- Line.from_points (PointObj p) (PointObj p) ;; Line.slope l) = Return None.
Proof.
  intros Hx Hy Hxy.
  assert (E : Line.from_points (PointObj p) (PointObj p) = Return (BuildLine 0 0 0)).
  { unfold Line.from_points. cbv zeta. rewrite !sub_diag, Hx, Hy, Hxy. reflexivity. }
  rewrite E. repeat split.
Qed.

Lemma from_points_coincident_witness :
  Line.from_points (PointObj (BuildPoint 3 4)) (PointObj (BuildPoint 3 4))
  = Return (BuildLine 0 0 0).
Proof.
  apply (from_points_coincident (BuildPoint 3 4)); reflexivity.
Defined.

(** X19. Vector laws that hold exactly on floats: negating twice gives the
    point back, addition is commutative, and for finite coordinates
    [p - p] and [p + (-p)] are the origin and [p.cross(p)] is [0.0] (NaN
    appears as soon as a coordinate, or the product [x * y], is not
    finite). *)
Theorem vector_laws (p q : Point) :
  (r <- Point.__neg__ p ;; Point.__neg__ r) = Return p /\
  Point.__add__ p (PointObj q) = Point.__add__ q (PointObj p) /\
  Point.__sub__ p (PointObj p)
  = Return (BuildPoint (if is_finite (x p) then 0 else nan)
                       (if is_finite (y p) then 0 else nan)) /\
  (r <- Point.__neg__ p ;; Point.__add__ p (PointObj r))
  = Return (BuildPoint (if is_finite (x p) then 0 else nan)
                       (if is_finite (y p) then 0 else nan)) /\
  Point.cross p (PointObj p) = Return (if is_finite (x p * y p) then 0 else nan).
Proof.
  destruct p as [px py], q as [qx qy].
  unfold Point.__neg__, Point.__add__, Point.__sub__, Point.cross, Point.new,
    Point.__init__.
  cbn [float_ bind x y].
  rewrite !float_opp_involutive, !sub_diag, !add_opp_diag.
  rewrite (float_add_comm px qx), (float_add_comm py qy).
  rewrite (float_mul_comm py px), sub_diag.
  repeat split.
Qed.

Lemma div_nan (a : float) : a / nan = nan.
Proof.
  apply Prim2SF_inj. rewrite div_spec. change (Prim2SF nan) with S754_nan.
  unfold SF64div. destruct (Prim2SF a) as [s|s| |s m e]; reflexivity.
Qed.

(** X20. A line meets itself in no point as long as the product [A * B] is
    finite; when that product overflows or is NaN the determinant is NaN,
    the tolerance test fails, and the answer is the point [(nan, nan)]. *)
Theorem self_intersection (l : Line) :
  Line.intersection_with l (LineObj l)
  = Return (if is_finite (A l * B l) then None else Some (BuildPoint nan nan)).
Proof.
  rewrite intersection_with_eq. cbv zeta. rewrite sub_diag.
  destruct (is_finite (A l * B l)); [reflexivity|].
  change (abs nan <=? Math.tol_1e_12) with false. cbv iota.
  rewrite !div_nan. reflexivity.
Qed.

End GeoAlgebra.
